(** * Synthetic CSV dataset generator

    A shallow embedding of [synthetic_data_generator_dimensions.py]: the
    function [generate_dataset], which writes a header row and [n_rows] rows
    of random integers to a CSV file, and the module-level driver loop that
    calls it on a fixed grid of sizes and dimensions.

    The script is effectful: it opens, writes and closes files, draws from
    numpy's global generator, prints to the console, and may raise.  All of
    this is threaded through one explicit [world] by a state-and-exception
    monad [M].  The library calls the script relies on ([open], [csv.writer],
    [np.random.randint], [print], [range], [str]) are modelled next to it, each
    following its documented behaviour. *)

From Stdlib Require Import ZArith QArith String Ascii List DecimalString DecimalZ.
From stdpp Require Import base option gmap strings list.

Open Scope Z_scope.

(** ** Python built-ins *)

(** [str(z)] for a Python [int]: decimal digits, a leading [-] when negative. *)
Definition str_of_Z (z : Z) : string := NilZero.string_of_int (Z.to_int z).

(** [int(s)] restricted to what [str] produces; [None] where Python raises. *)
Definition int_of_str (s : string) : option Z :=
  Z.of_int <$> NilZero.int_of_string s.

(** [range(n)]: [0, 1, ..., n-1], empty when [n <= 0]. *)
Definition range (n : Z) : list Z := Z.of_nat <$> seq 0 (Z.to_nat n).

(** [sep.join(parts)]. *)
Definition join (sep : string) (parts : list string) : string :=
  String.concat sep parts.

Definition LF : ascii := "010"%char.
Definition CR : ascii := "013"%char.
Definition COMMA : ascii := ","%char.
Definition DQUOTE : ascii := "034"%char.

Definition str1 (c : ascii) : string := String c EmptyString.
Definition CRLF : string := String CR (str1 LF).

(** Values a CSV row may hold in this script: strings and integers. *)
Inductive pyval : Type :=
  | PyStr (s : string)
  | PyInt (z : Z).

Definition py_str (v : pyval) : string :=
  match v with
  | PyStr s => s
  | PyInt z => str_of_Z z
  end.

(** ** The world the script runs in *)

Inductive platform : Type := Posix | Windows.

(** [os.linesep]. *)
Definition os_linesep (p : platform) : string :=
  match p with
  | Posix => str1 LF
  | Windows => CRLF
  end.

Inductive exn : Type :=
  | OSError
  | ValueError (msg : string).

Inductive result (A : Type) : Type :=
  | Ok (a : A)
  | Raise (e : exn).
Arguments Ok {A} a.
Arguments Raise {A} e.

(** An open text file: the path it was opened on and the [newline] argument
    given to [open] ([None] is Python's default). *)
Record text_io : Type := TextIO {
  io_path : string;
  io_newline : option string
}.

(** The state every effect acts on.
    - [files]: the file system, path to contents;
    - [open_files]: the table of open handles;
    - [io_faults], [io_clock]: which I/O operations fail, and how many have
      been attempted so far; operation number [k] raises [OSError] exactly
      when [io_faults k] holds, so every pattern of disk-full or permission
      failures is some choice of [io_faults];
    - [entropy], [drawn]: what numpy's global generator is going to yield,
      sample after sample, and how many samples it has handed out so far
      (how numpy gets its samples from the words of the Mersenne Twister is
      [sampler_stream] below);
    - [stdout]: the lines printed so far. *)
Record world : Type := World {
  host : platform;
  files : gmap string string;
  open_files : gmap nat text_io;
  io_faults : nat -> bool;
  io_clock : nat;
  entropy : nat -> Z;
  drawn : nat;
  stdout : list string
}.

Definition with_files (f : gmap string string) (w : world) : world :=
  World (host w) f (open_files w) (io_faults w) (io_clock w)
        (entropy w) (drawn w) (stdout w).

Definition with_open_files (o : gmap nat text_io) (w : world) : world :=
  World (host w) (files w) o (io_faults w) (io_clock w)
        (entropy w) (drawn w) (stdout w).

Definition with_io_clock (n : nat) (w : world) : world :=
  World (host w) (files w) (open_files w) (io_faults w) n
        (entropy w) (drawn w) (stdout w).

Definition with_drawn (n : nat) (w : world) : world :=
  World (host w) (files w) (open_files w) (io_faults w) (io_clock w)
        (entropy w) n (stdout w).

Definition with_stdout (l : list string) (w : world) : world :=
  World (host w) (files w) (open_files w) (io_faults w) (io_clock w)
        (entropy w) (drawn w) l.

(** No I/O operation ever fails. *)
Definition fault_free (w : world) : Prop := forall k, io_faults w k = false.

(** ** State and exceptions *)

Definition M (A : Type) : Type := world -> result A * world.

Definition ret {A} (a : A) : M A := fun w => (Ok a, w).

Definition raise {A} (e : exn) : M A := fun w => (Raise e, w).

(** Sequencing: an exception skips the rest and keeps the state reached. *)
Definition bind {A B} (m : M A) (k : A -> M B) : M B :=
  fun w =>
    match m w with
    | (Ok a, w') => k a w'
    | (Raise e, w') => (Raise e, w')
    end.

#[global] Instance M_ret : MRet M := @ret.
#[global] Instance M_bind : MBind M := fun A B k m => bind m k.

(** [for x in l: body(x)]. *)
Fixpoint for_each {A} (l : list A) (body : A -> M unit) : M unit :=
  match l with
  | [] => ret tt
  | x :: l' => body x ;; for_each l' body
  end.

(** ** Text files *)

(** Every I/O operation takes the next slot of the fault schedule. *)
Definition io_attempt : M unit :=
  fun w =>
    let w' := with_io_clock (S (io_clock w)) w in
    if io_faults w (io_clock w) then (Raise OSError, w') else (Ok tt, w').

(** The values [open] accepts for [newline]. *)
Definition legal_newline (nl : option string) : bool :=
  match nl with
  | None => true
  | Some s =>
      bool_decide (s = EmptyString) || bool_decide (s = str1 LF)
      || bool_decide (s = str1 CR) || bool_decide (s = CRLF)
  end.

(** What a written line feed becomes on the way to the file: with
    [newline=None] it is [os.linesep], with [newline=''] or ['\n'] it is left
    alone, with any other legal value it is that value. *)
Definition lf_written_as (p : platform) (nl : option string) : string :=
  match nl with
  | None => os_linesep p
  | Some EmptyString => str1 LF
  | Some s => s
  end.

Fixpoint translate_newlines (rep : string) (s : string) : string :=
  match s with
  | EmptyString => EmptyString
  | String c s' =>
      if bool_decide (c = LF) then rep +:+ translate_newlines rep s'
      else String c (translate_newlines rep s')
  end.

(** [open(filename, 'w', newline=nl)]: the file is created or truncated and a
    new handle is entered in the table.  Names are not inspected: a name that
    Python or the operating system refuses is an open that fails, which is for
    the fault schedule to say. *)
Definition open_w (filename : string) (nl : option string) : M nat :=
  if negb (legal_newline nl) then raise (ValueError "illegal newline value")
  else
    io_attempt ;;
    (fun w =>
      let fd := fresh (dom (open_files w)) in
      (Ok fd,
       with_open_files (<[fd := TextIO filename nl]> (open_files w))
         (with_files (<[filename := EmptyString]> (files w)) w))) : M nat.

(** [f.write(s)]: appends to the file the handle is open on.  The text is
    taken to reach the disk with the call: Python's buffer in between, which
    lets a failure surface at a later write or at the close and cut the text
    anywhere, is not modelled. *)
Definition file_write (fd : nat) (s : string) : M unit :=
  fun w =>
    match open_files w !! fd with
    | None => (Raise (ValueError "I/O operation on closed file."), w)
    | Some io =>
        (io_attempt ;;
         (fun w1 =>
            let old := default EmptyString (files w1 !! io_path io) in
            let new :=
              translate_newlines (lf_written_as (host w1) (io_newline io)) s in
            (Ok tt, with_files (<[io_path io := old +:+ new]> (files w1)) w1))
         : M unit) w
    end.

(** [f.close()]: the handle leaves the table whether or not the final flush
    succeeds; closing a closed file does nothing. *)
Definition file_close (fd : nat) : M unit :=
  fun w =>
    match open_files w !! fd with
    | None => (Ok tt, w)
    | Some _ => io_attempt (with_open_files (delete fd (open_files w)) w)
    end.

(** [with open(filename, 'w', newline=nl) as f: body(f)].  The handle is
    closed when the body is left, normally or by an exception; an exception
    raised by the close itself replaces the body's outcome. *)
Definition with_open {A} (filename : string) (nl : option string)
    (body : nat -> M A) : M A :=
  fun w =>
    match open_w filename nl w with
    | (Raise e, w1) => (Raise e, w1)
    | (Ok fd, w1) =>
        let (r, w2) := body fd w1 in
        match file_close fd w2 with
        | (Raise e, w3) => (Raise e, w3)
        | (Ok _, w3) => (r, w3)
        end
    end.

(** [print(line)]. *)
Definition print (line : string) : M unit :=
  fun w => (Ok tt, with_stdout (stdout w ++ [line]) w).

(** ** [csv.writer] with the default (excel) dialect *)

(** Characters that force a field to be quoted: the delimiter, the quote
    character, and the characters of the line terminator. *)
Definition csv_special (c : ascii) : bool :=
  bool_decide (c = COMMA) || bool_decide (c = DQUOTE)
  || bool_decide (c = CR) || bool_decide (c = LF).

Fixpoint csv_needs_quote (s : string) : bool :=
  match s with
  | EmptyString => false
  | String c s' => csv_special c || csv_needs_quote s'
  end.

Fixpoint csv_double_quotes (s : string) : string :=
  match s with
  | EmptyString => EmptyString
  | String c s' =>
      if bool_decide (c = DQUOTE) then String c (String c (csv_double_quotes s'))
      else String c (csv_double_quotes s')
  end.

(** QUOTE_MINIMAL. *)
Definition csv_field (s : string) : string :=
  if csv_needs_quote s
  then String DQUOTE (csv_double_quotes s +:+ str1 DQUOTE)
  else s.

(** One record, without its terminator.  A row made of a single empty field
    is written as a pair of quotes so that it is not read back as no row. *)
Definition csv_record (row : list pyval) : string :=
  let rec := join (str1 COMMA) (csv_field <$> (py_str <$> row)) in
  match row with
  | [_] => if bool_decide (rec = EmptyString) then String DQUOTE (str1 DQUOTE) else rec
  | _ => rec
  end.

(** [csv.writer(csvfile)]: the writer is the handle it writes to. *)
Definition csv_writer (csvfile : nat) : nat := csvfile.

(** [writer.writerow(row)]: one [write] of the record and ["\r\n"]. *)
Definition csv_writerow (writer : nat) (row : list pyval) : M unit :=
  file_write writer (csv_record row +:+ CRLF).

(** ** [np.random.randint] *)

(** One sample of [randint(low, high)]: [low] plus what the generator yields
    for a range of [high - low] values.  The generator yields a value below
    [high - low], on which the reduction does nothing; it is there so that the
    function is defined for every [entropy]. *)
Definition bounded (low high raw : Z) : Z := low + raw mod (high - low).

(** [np.random.randint(low, high, size=size).tolist()]: the next [size]
    samples of the generator, for sizes within numpy's index range. *)
Definition np_random_randint (low high size : Z) : M (list Z) :=
  fun w =>
    if high <=? low then (Raise (ValueError "low >= high"), w)
    else if size <? 0 then
      (Raise (ValueError "negative dimensions are not allowed"), w)
    else
      let n := Z.to_nat size in
      (Ok ((fun k => bounded low high (entropy w (drawn w + k)%nat)) <$> seq 0 n),
       with_drawn (drawn w + n)%nat w).

(** ** The script *)

Definition generate_dataset (filename : string) (n_rows n_dims : Z) : M unit :=
  let headers :=
    (fun i => PyStr ("dimension_" +:+ str_of_Z (i + 1))) <$> range n_dims in
  with_open filename (Some EmptyString) (fun csvfile =>
    let writer := csv_writer csvfile in
    csv_writerow writer headers ;;
    for_each (range n_rows) (fun _ =>
      values ← np_random_randint 0 101 n_dims;
      csv_writerow writer (PyInt <$> values))) ;;
  print ("Generated " +:+ str_of_Z n_rows +:+ " rows x " +:+ str_of_Z n_dims
         +:+ " dimensions in '" +:+ filename +:+ "'").

Definition sizes : list Z := [100; 1000; 10000; 100000].
Definition dimensions : list Z := [10; 20].

(** The module-level loop, with the function it calls left open so that the
    calls it makes can be read off. *)
Definition driver_with (generate : string -> Z -> Z -> M unit) : M unit :=
  for_each dimensions (fun n_dims =>
    for_each sizes (fun size =>
      let filename :=
        "dataset_" +:+ str_of_Z n_dims +:+ "D_" +:+ str_of_Z size +:+ ".csv" in
      generate filename size n_dims)).

Definition driver : M unit := driver_with generate_dataset.

(** A quiet machine for examples: no file, no open handle, no I/O fault, and a
    generator that yields 0, 37, 74, 111, ... (brought into range). *)
Definition demo_world (p : platform) : world :=
  World p ∅ ∅ (fun _ => false) 0 (fun k => 37 * Z.of_nat k) 0 [].

(** ** Reading a file back

    The claims speak of lines, fields and cell values of the file on disk.
    These are the readers they are stated with; none of them is used by the
    script. *)

(** [s.splitlines()], for the line boundaries ["\n"], ["\r"] and ["\r\n"]. *)
Fixpoint splitlines (s : string) : list string :=
  match s with
  | EmptyString => []
  | String c s' =>
      if bool_decide (c = CR) then
        match s' with
        | String c' s'' =>
            if bool_decide (c' = LF) then EmptyString :: splitlines s''
            else EmptyString :: splitlines s'
        | EmptyString => [EmptyString]
        end
      else if bool_decide (c = LF) then EmptyString :: splitlines s'
      else
        match splitlines s' with
        | [] => [str1 c]
        | l :: ls => String c l :: ls
        end
  end.

(** [s.split(sep)] for a one-character separator. *)
Fixpoint split_on (sep : ascii) (s : string) : list string :=
  match s with
  | EmptyString => [EmptyString]
  | String c s' =>
      if bool_decide (c = sep) then EmptyString :: split_on sep s'
      else
        match split_on sep s' with
        | [] => [str1 c]
        | f :: fs => String c f :: fs
        end
  end.

(** The fields [csv.reader] yields for a line without quotes: a blank line is
    a row with no field. *)
Definition csv_fields (line : string) : list string :=
  if bool_decide (line = EmptyString) then [] else split_on COMMA line.

(** Does [c] occur in [s]? *)
Fixpoint occurs (c : ascii) (s : string) : bool :=
  match s with
  | EmptyString => false
  | String c' s' => bool_decide (c' = c) || occurs c s'
  end.

(** A text made of the given rows, each followed by the terminator [sep]. *)
Fixpoint terminated (sep : string) (rows : list string) : string :=
  match rows with
  | [] => EmptyString
  | r :: rows' => r +:+ sep +:+ terminated sep rows'
  end.

(** A line holds neither a carriage return nor a line feed. *)
Definition one_line (l : string) : Prop :=
  occurs CR l = false /\ occurs LF l = false.

(** A field as the script writes them: not empty, and in no need of quotes. *)
Definition plain (f : string) : Prop :=
  f <> EmptyString /\ csv_needs_quote f = false.

(** The text is a sequence of lines, each followed by the terminator [sep]. *)
Definition rows_end_with (sep : string) (content : string) : Prop :=
  exists rows, Forall one_line rows /\ content = terminated sep rows.

(** [w'] is the machine [w] later on: same platform, same fault schedule,
    same generator, and the same handles open. *)
Definition same_machine (w w' : world) : Prop :=
  host w' = host w /\ open_files w' = open_files w
  /\ io_faults w' = io_faults w /\ entropy w' = entropy w.

(** An effect after which the machine is the same, however the effect ends. *)
Definition steady {A} (m : M A) : Prop :=
  forall w, same_machine w (m w).2.

(** A machine on which the fourth I/O operation fails, with a log file
    already open. *)
Definition flaky_world : world :=
  World Posix ∅ {[ 0%nat := TextIO "other.log" None ]}
        (fun k => bool_decide (k = 3%nat)) 0 (fun k => 37 * Z.of_nat k) 0 [].

(** [flaky_world] after [generate_dataset "t.csv" 3 2]: the header and the
    first row are on disk, five I/O operations were attempted, two rows of
    samples were drawn, nothing was printed. *)
Definition flaky_after : world :=
  World Posix
        {[ "t.csv" := "dimension_1,dimension_2" +:+ CRLF +:+ "0,37" +:+ CRLF ]}
        {[ 0%nat := TextIO "other.log" None ]}
        (fun k => bool_decide (k = 3%nat)) 5 (fun k => 37 * Z.of_nat k) 4 [].

(** ** What the script is expected to leave behind *)

(** The column names [dimension_1 .. dimension_n]. *)
Definition column_names (n_dims : Z) : list string :=
  (fun i => "dimension_" +:+ str_of_Z (i + 1)) <$> range n_dims.

(** The [n] samples number [start] to [start + n - 1] of the generator. *)
Definition sample_row (ent : nat -> Z) (start n : nat) : list Z :=
  (fun k => bounded 0 101 (ent (start + k)%nat)) <$> seq 0 n.

(** [rows] consecutive sample rows of width [n]. *)
Fixpoint sample_rows (ent : nat -> Z) (start n rows : nat) : list (list Z) :=
  match rows with
  | O => []
  | S rows' => sample_row ent start n :: sample_rows ent (start + n) n rows'
  end.

Definition comma_line (fields : list string) : string :=
  join (str1 COMMA) fields.

Definition data_lines (ent : nat -> Z) (start : nat) (n_rows n_dims : Z)
  : list string :=
  (fun row => comma_line (str_of_Z <$> row))
    <$> sample_rows ent start (Z.to_nat n_dims) (Z.to_nat n_rows).

Definition dataset_lines (ent : nat -> Z) (start : nat) (n_rows n_dims : Z)
  : list string :=
  comma_line (column_names n_dims) :: data_lines ent start n_rows n_dims.

Definition confirmation (filename : string) (n_rows n_dims : Z) : string :=
  "Generated " +:+ str_of_Z n_rows +:+ " rows x " +:+ str_of_Z n_dims
  +:+ " dimensions in '" +:+ filename +:+ "'".

(** The world a successful call leaves: the file replaced, one I/O operation
    for the open, one per row written and one for the close, the samples
    consumed, the confirmation printed; nothing else moves. *)
Definition after_generate (filename : string) (n_rows n_dims : Z) (w : world)
  : world :=
  World (host w)
        (<[filename :=
             terminated CRLF (dataset_lines (entropy w) (drawn w) n_rows n_dims)]>
           (files w))
        (open_files w) (io_faults w)
        (io_clock w + Z.to_nat n_rows + 3)%nat
        (entropy w)
        (drawn w + Z.to_nat n_rows * Z.to_nat n_dims)%nat
        (stdout w ++ [confirmation filename n_rows n_dims]).

(** The world a call with a negative dimension count and at least one row
    leaves: the file holds a lone line terminator, nothing is printed. *)
Definition after_failed_generate (filename : string) (w : world) : world :=
  World (host w) (<[filename := CRLF]> (files w))
        (open_files w) (io_faults w) (io_clock w + 3)%nat
        (entropy w) (drawn w) (stdout w).

(** The calls the driver is expected to make, in order:
    (filename, row count, dimension count). *)
Definition driver_calls : list (string * Z * Z) :=
  [ ("dataset_10D_100.csv", 100, 10);
    ("dataset_10D_1000.csv", 1000, 10);
    ("dataset_10D_10000.csv", 10000, 10);
    ("dataset_10D_100000.csv", 100000, 10);
    ("dataset_20D_100.csv", 100, 20);
    ("dataset_20D_1000.csv", 1000, 20);
    ("dataset_20D_10000.csv", 10000, 20);
    ("dataset_20D_100000.csv", 100000, 20) ].

(** One call of the driver, applied to the function it is given. *)
Definition call_with (generate : string -> Z -> Z -> M unit)
    (c : string * Z * Z) : M unit :=
  generate c.1.1 c.1.2 c.2.

(** The line a call prints when it succeeds. *)
Definition call_confirmation (c : string * Z * Z) : string :=
  confirmation c.1.1 c.1.2 c.2.

(** The file name the driver builds for a combination. *)
Definition dataset_filename (n_dims size : Z) : string :=
  "dataset_" +:+ str_of_Z n_dims +:+ "D_" +:+ str_of_Z size +:+ ".csv".

Definition call_name (c : string * Z * Z) : string := c.1.1.

(** The exception [np.random.randint] raises on a negative [size]. *)
Definition sampling_error : exn :=
  ValueError "negative dimensions are not allowed".

(** The characters [str] of an integer is made of. *)
Definition numeral_chars : string := "0123456789-".

(** The data lines the script writes, as rows of text. *)
Definition row_line (row : list Z) : string := comma_line (str_of_Z <$> row).

(** Reading a whole dataset back, as [csv.reader] and [int] would: the
    header's fields and the matrix of cells; [None] when there is no header
    line or some cell is not an integer. *)
Definition read_row (line : string) : option (list Z) :=
  mapM int_of_str (csv_fields line).

Definition read_dataset (content : string)
  : option (list string * list (list Z)) :=
  match splitlines content with
  | [] => None
  | header :: rows => (fun cells => (csv_fields header, cells)) <$> mapM read_row rows
  end.

(** A machine on which only the close of the first file fails. *)
Definition close_fails_world : world :=
  World Posix ∅ ∅ (fun k => bool_decide (k = 3%nat)) 0
        (fun k => 37 * Z.of_nat k) 0 [].

(** A quiet machine that already holds two files. *)
Definition stocked_world : world :=
  World Posix {[ "keep.csv" := "1,2"; "t1.csv" := "stale" ]} ∅
        (fun _ => false) 0 (fun k => 37 * Z.of_nat k) 0 [].

(** ** How numpy draws, and how likely each outcome is

    For a range of 101 values numpy's legacy generator takes 32-bit words from
    the Mersenne Twister, keeps the low seven bits of each, and draws again
    while the result is above 100. *)

Definition mask7 (word : Z) : Z := Z.land word 127.

(** The samples obtained from a run of words, in order. *)
Fixpoint sampler_stream (words : list Z) : list Z :=
  match words with
  | [] => []
  | word :: words' =>
      if mask7 word <=? 100 then mask7 word :: sampler_stream words'
      else sampler_stream words'
  end.

(** The machine [w] with its generator about to yield [samples]. *)
Definition with_samples (samples : list Z) (w : world) : world :=
  World (host w) (files w) (open_files w) (io_faults w) (io_clock w)
        (fun k => if (k <? drawn w)%nat then entropy w k
                  else nth (k - drawn w) samples 0)
        (drawn w) (stdout w).

(** The machine [w] with the Mersenne Twister about to produce [words]. *)
Definition with_words (words : list Z) (w : world) : world :=
  with_samples (sampler_stream words) w.

(** The cells of a file on disk, read back row by row. *)
Definition written_cells (filename : string) (w : world) : option (list Z) :=
  match files w !! filename ≫= read_dataset with
  | Some (_, cells) => Some (concat cells)
  | None => None
  end.

(** The number of cells a call is to write. *)
Definition cell_count (n_rows n_dims : Z) : nat :=
  (Z.to_nat n_rows * Z.to_nat n_dims)%nat.

(** Cell number [k] lies in event number [k], for every [k]. *)
Fixpoint all_in (events : list (Z -> bool)) (cells : list Z) : bool :=
  match events, cells with
  | [], [] => true
  | A :: events', c :: cells' => A c && all_in events' cells'
  | _, _ => false
  end.

(** An event on the words the Mersenne Twister produces: they are enough for
    the call to draw all its samples, and in the file the call writes every
    cell lies in its event. *)
Definition run_event (filename : string) (n_rows n_dims : Z) (w : world)
    (events : list (Z -> bool)) (words : list Z) : bool :=
  (length events <=? length (sampler_stream words))%nat
  && match written_cells filename
             (generate_dataset filename n_rows n_dims (with_words words w)).2
     with
     | Some cells => all_in events cells
     | None => false
     end.

(** The low seven bits a word can have, and the runs of [n] of them: the
    sample space.  A word taken uniformly has uniform low bits, so the runs
    are equally likely when the words are uniform and independent. *)
Definition low_bits : list Z := range 128.

Fixpoint word_runs (n : nat) : list (list Z) :=
  match n with
  | O => [[]]
  | S n' => flat_map (fun u => map (cons u) (word_runs n')) low_bits
  end.

Definition count {A} (P : A -> bool) (l : list A) : nat :=
  length (List.filter P l).

(** The event that holds of every value, and the family of events that
    constrains cell [k] alone. *)
Definition anything : Z -> bool := fun _ => true.

Definition only (m k : nat) (A : Z -> bool) : list (Z -> bool) :=
  <[k := A]> (replicate m anything).

(** The probability of an event on the cells, over the runs of [N] words and
    given that [N] words are enough for the call: favourable runs over runs
    that complete. *)
Definition Pr (filename : string) (n_rows n_dims : Z) (w : world) (N : nat)
    (events : list (Z -> bool)) : Q :=
  (inject_Z (Z.of_nat
     (count (run_event filename n_rows n_dims w events) (word_runs N)))
   / inject_Z (Z.of_nat
       (count (run_event filename n_rows n_dims w
                 (replicate (cell_count n_rows n_dims) anything))
              (word_runs N))))%Q.

Definition Qprod (l : list Q) : Q := foldr Qmult 1%Q l.

(** Counting devices: the event of [run_event] told on the words alone, the
    number of values of 0..100 in each event multiplied up, and the number of
    runs of [N] words whose first [m] samples are given ones. *)
Fixpoint hits (words : list Z) (events : list (Z -> bool)) : bool :=
  match words, events with
  | _, [] => true
  | [], _ :: _ => false
  | word :: words', A :: events' =>
      if mask7 word <=? 100 then A (mask7 word) && hits words' events'
      else hits words' events
  end.

Definition prod_counts (events : list (Z -> bool)) : nat :=
  foldr (fun A acc => count A (range 101) * acc)%nat 1%nat events.

Fixpoint fixed_count (N m : nat) : nat :=
  match N, m with
  | O, O => 1
  | O, S _ => 0
  | S N', O => 128 * fixed_count N' 0
  | S N', S m' => fixed_count N' m' + 27 * fixed_count N' m
  end.

(** * Properties *)

(** ** Strings *)

Lemma str_app_nil_l (s : string) : EmptyString +:+ s = s.
Proof. reflexivity. Qed.

Lemma str_app_cons (c : ascii) (s t : string) :
  String c s +:+ t = String c (s +:+ t).
Proof. reflexivity. Qed.

Lemma str_app_nil_r (s : string) : s +:+ EmptyString = s.
Proof.
  induction s as [|c s IH]; [reflexivity |].
  now rewrite str_app_cons, IH.
Qed.

Lemma str_app_assoc (a b c : string) : (a +:+ b) +:+ c = a +:+ (b +:+ c).
Proof.
  induction a as [|x a IH]; [reflexivity |].
  now rewrite !str_app_cons, IH.
Qed.

Lemma occurs_app (c : ascii) (a b : string) :
  occurs c (a +:+ b) = occurs c a || occurs c b.
Proof.
  induction a as [|x a IH]; [reflexivity |].
  rewrite str_app_cons. simpl. now rewrite IH, orb_assoc.
Qed.

Lemma needs_quote_app (a b : string) :
  csv_needs_quote (a +:+ b) = csv_needs_quote a || csv_needs_quote b.
Proof.
  induction a as [|x a IH]; [reflexivity |].
  rewrite str_app_cons. simpl. now rewrite IH, orb_assoc.
Qed.

(** A field that needs no quoting holds no comma and no line break. *)
Lemma plain_no_occurrence (s : string) :
  csv_needs_quote s = false ->
  occurs COMMA s = false /\ occurs CR s = false /\ occurs LF s = false.
Proof.
  induction s as [|c s IH]; simpl; [easy |].
  unfold csv_special. intros H.
  repeat (apply orb_false_elim in H; destruct H as [H ?]).
  destruct IH as (? & ? & ?); [assumption |].
  repeat split; apply orb_false_intro; assumption.
Qed.

Lemma translate_newlines_lf (s : string) : translate_newlines (str1 LF) s = s.
Proof.
  induction s as [|c s IH]; simpl; [reflexivity |].
  rewrite IH. case_bool_decide as Hc; [now subst c | reflexivity].
Qed.

(** *** Decimal numerals *)

Lemma digits_plain (d : Decimal.uint) :
  csv_needs_quote (NilEmpty.string_of_uint d) = false.
Proof. induction d; simpl; [reflexivity | assumption ..]. Qed.

Lemma str_of_Z_plain (z : Z) : csv_needs_quote (str_of_Z z) = false.
Proof.
  unfold str_of_Z, NilZero.string_of_int, NilZero.string_of_uint.
  destruct (Z.to_int z) as [d | d]; destruct d; simpl;
    try reflexivity; apply digits_plain.
Qed.

Lemma digits_nonempty (d : Decimal.uint) :
  d <> Decimal.Nil -> NilEmpty.string_of_uint d <> EmptyString.
Proof. destruct d; simpl; congruence. Qed.

Lemma str_of_Z_nonempty (z : Z) : str_of_Z z <> EmptyString.
Proof.
  unfold str_of_Z, NilZero.string_of_int, NilZero.string_of_uint.
  destruct (Z.to_int z) as [d | d]; destruct d; simpl; congruence.
Qed.

Lemma to_int_proper (z : Z) :
  Z.to_int z <> Decimal.Pos Decimal.Nil /\ Z.to_int z <> Decimal.Neg Decimal.Nil.
Proof.
  destruct z as [|p|p]; simpl; split; try congruence;
    intros H; injection H as H; now apply DecimalPos.Unsigned.to_uint_nonnil in H.
Qed.

(** [int(str(z)) == z]. *)
Lemma int_of_str_of_Z (z : Z) : int_of_str (str_of_Z z) = Some z.
Proof.
  unfold int_of_str, str_of_Z.
  destruct (to_int_proper z) as [Hp Hn].
  rewrite NilZero.isi by assumption. simpl. now rewrite DecimalZ.of_to.
Qed.

(** *** Lines *)

Lemma splitlines_line (l rest : string) :
  occurs CR l = false -> occurs LF l = false ->
  splitlines (l +:+ CRLF +:+ rest) = l :: splitlines rest.
Proof.
  induction l as [|c l IH]; intros Hcr Hlf.
  - reflexivity.
  - simpl in Hcr, Hlf.
    apply orb_false_elim in Hcr as [Hc1 Hcr].
    apply orb_false_elim in Hlf as [Hc2 Hlf].
    rewrite str_app_cons. simpl splitlines.
    rewrite Hc1, Hc2, (IH Hcr Hlf). reflexivity.
Qed.

Lemma splitlines_terminated (rows : list string) :
  Forall one_line rows -> splitlines (terminated CRLF rows) = rows.
Proof.
  induction 1 as [|l rows [Hcr Hlf] _ IH]; [reflexivity |].
  simpl terminated. now rewrite splitlines_line, IH.
Qed.

(** *** Fields *)

Lemma split_on_whole (sep : ascii) (a : string) :
  occurs sep a = false -> split_on sep a = [a].
Proof.
  induction a as [|c a IH]; intros H; [reflexivity |].
  simpl in *. apply orb_false_elim in H as [Hc H].
  now rewrite Hc, (IH H).
Qed.

Lemma split_on_first (sep : ascii) (a b : string) :
  occurs sep a = false ->
  split_on sep (a +:+ String sep b) = a :: split_on sep b.
Proof.
  induction a as [|c a IH]; intros H.
  - rewrite str_app_nil_l. simpl. now rewrite bool_decide_eq_true_2.
  - simpl in H. apply orb_false_elim in H as [Hc H].
    rewrite str_app_cons. simpl. now rewrite Hc, (IH H).
Qed.

Lemma split_on_comma_line (fields : list string) :
  fields <> [] ->
  Forall (fun f => occurs COMMA f = false) fields ->
  split_on COMMA (comma_line fields) = fields.
Proof.
  intros Hne Hall. induction Hall as [|f fs Hf Hfs IH]; [congruence |].
  destruct fs as [|g fs].
  - simpl. now apply split_on_whole.
  - change (comma_line (f :: g :: fs))
      with (f +:+ String COMMA (comma_line (g :: fs))).
    rewrite split_on_first by assumption.
    now rewrite IH.
Qed.

Lemma comma_line_nonempty (f : string) (fs : list string) :
  f <> EmptyString -> comma_line (f :: fs) <> EmptyString.
Proof.
  intros Hf. destruct fs as [|g fs]; [exact Hf |].
  change (comma_line (f :: g :: fs))
    with (f +:+ String COMMA (comma_line (g :: fs))).
  destruct f; [congruence | rewrite str_app_cons; congruence].
Qed.

(** Reading back a line of plain fields gives the fields. *)
Lemma csv_fields_comma_line (fields : list string) :
  Forall plain fields -> csv_fields (comma_line fields) = fields.
Proof.
  intros Hall. unfold csv_fields.
  destruct fields as [|f fs]; [reflexivity |].
  rewrite bool_decide_eq_false_2.
  - apply split_on_comma_line; [congruence |].
    eapply Forall_impl; [exact Hall |].
    intros x [_ Hx]. now apply plain_no_occurrence in Hx.
  - apply comma_line_nonempty. now inversion Hall as [|? ? [? _]].
Qed.

Lemma comma_line_one_line (fields : list string) :
  Forall plain fields -> one_line (comma_line fields).
Proof.
  induction 1 as [|f fs [_ Hf] _ IH]; [easy |].
  apply plain_no_occurrence in Hf as (_ & Hcr & Hlf).
  destruct fs as [|g fs]; [easy |].
  change (comma_line (f :: g :: fs))
    with (f +:+ String COMMA (comma_line (g :: fs))).
  destruct IH as [IHcr IHlf].
  split; rewrite occurs_app; simpl; rewrite ?Hcr, ?Hlf, ?IHcr, ?IHlf; reflexivity.
Qed.

(** *** Records *)

Lemma csv_field_plain (f : string) : csv_needs_quote f = false -> csv_field f = f.
Proof. intros H. unfold csv_field. now rewrite H. Qed.

Lemma csv_record_plain (row : list pyval) :
  Forall (fun v => plain (py_str v)) row ->
  csv_record row = comma_line (py_str <$> row).
Proof.
  intros Hall.
  assert (Hmap : csv_field <$> (py_str <$> row) = py_str <$> row).
  { induction Hall as [|v row [_ Hv] _ IH]; [reflexivity |].
    rewrite !fmap_cons, IH, csv_field_plain by assumption. reflexivity. }
  unfold csv_record. rewrite Hmap.
  destruct row as [|v [|v' row]]; try reflexivity.
  rewrite bool_decide_eq_false_2; [reflexivity |].
  apply comma_line_nonempty. now inversion Hall as [|? ? [? _]].
Qed.

Lemma str_of_Z_is_plain (z : Z) : plain (str_of_Z z).
Proof. split; [apply str_of_Z_nonempty | apply str_of_Z_plain]. Qed.

Lemma column_name_plain (i : Z) : plain ("dimension_" +:+ str_of_Z i).
Proof.
  split; [discriminate |].
  rewrite needs_quote_app, str_of_Z_plain. reflexivity.
Qed.

Lemma column_names_plain (n_dims : Z) : Forall plain (column_names n_dims).
Proof.
  unfold column_names. apply Forall_fmap, Forall_true.
  intros i. apply column_name_plain.
Qed.

Lemma numerals_plain (row : list Z) : Forall plain (str_of_Z <$> row).
Proof. apply Forall_fmap, Forall_true. intros z. apply str_of_Z_is_plain. Qed.

Lemma csv_record_headers (n_dims : Z) :
  csv_record ((fun i => PyStr ("dimension_" +:+ str_of_Z (i + 1))) <$> range n_dims)
  = comma_line (column_names n_dims).
Proof.
  rewrite csv_record_plain.
  - unfold column_names. now rewrite <- list_fmap_compose.
  - apply Forall_fmap, Forall_true. intros i. apply column_name_plain.
Qed.

Lemma csv_record_ints (row : list Z) :
  csv_record (PyInt <$> row) = comma_line (str_of_Z <$> row).
Proof.
  rewrite csv_record_plain.
  - now rewrite <- list_fmap_compose.
  - apply Forall_fmap, Forall_true. intros z. apply str_of_Z_is_plain.
Qed.

Lemma dataset_lines_one_line ent start n_rows n_dims :
  Forall one_line (dataset_lines ent start n_rows n_dims).
Proof.
  constructor.
  - apply comma_line_one_line, column_names_plain.
  - unfold data_lines. apply Forall_fmap, Forall_true.
    intros row. apply comma_line_one_line, numerals_plain.
Qed.

(** ** Running the effects *)

Lemma bind_run {A B} (m : M A) (k : A -> M B) (w : world) :
  (m ≫= k) w =
  match m w with
  | (Ok a, w') => k a w'
  | (Raise e, w') => (Raise e, w')
  end.
Proof. reflexivity. Qed.

Lemma bind_ok {A B} (m : M A) (k : A -> M B) (w w' : world) (a : A) :
  m w = (Ok a, w') -> (m ≫= k) w = k a w'.
Proof. intros H. now rewrite bind_run, H. Qed.

Lemma bind_raise {A B} (m : M A) (k : A -> M B) (w w' : world) (e : exn) :
  m w = (Raise e, w') -> (m ≫= k) w = (Raise e, w').
Proof. intros H. now rewrite bind_run, H. Qed.

Section FaultFree.
(** The parts of the world no operation of the script changes. *)
Variables (h : platform) (flt : nat -> bool) (ent : nat -> Z).
Hypothesis no_fault : forall k, flt k = false.

Lemma io_attempt_ok fs o clk dr out :
  io_attempt (World h fs o flt clk ent dr out)
  = (Ok tt, World h fs o flt (S clk) ent dr out).
Proof. unfold io_attempt. simpl. now rewrite no_fault. Qed.

Lemma open_w_ok filename fs o clk dr out :
  open_w filename (Some EmptyString) (World h fs o flt clk ent dr out)
  = (Ok (fresh (dom o)),
     World h (<[filename := EmptyString]> fs)
           (<[fresh (dom o) := TextIO filename (Some EmptyString)]> o)
           flt (S clk) ent dr out).
Proof.
  unfold open_w.
  change (negb (legal_newline (Some EmptyString))) with false. cbv iota.
  erewrite bind_ok by apply io_attempt_ok. reflexivity.
Qed.

Lemma file_write_ok fd path s c fs o clk dr out :
  o !! fd = Some (TextIO path (Some EmptyString)) ->
  fs !! path = Some c ->
  file_write fd s (World h fs o flt clk ent dr out)
  = (Ok tt, World h (<[path := c +:+ s]> fs) o flt (S clk) ent dr out).
Proof.
  intros Ho Hc. unfold file_write. simpl open_files. rewrite Ho.
  erewrite bind_ok by apply io_attempt_ok.
  simpl. rewrite Hc. simpl. rewrite translate_newlines_lf. reflexivity.
Qed.

Lemma file_close_ok fd io fs o clk dr out :
  o !! fd = Some io ->
  file_close fd (World h fs o flt clk ent dr out)
  = (Ok tt, World h fs (delete fd o) flt (S clk) ent dr out).
Proof.
  intros Ho. unfold file_close. simpl open_files. rewrite Ho.
  apply io_attempt_ok.
Qed.

Lemma randint_ok n_dims fs o clk dr out :
  0 <= n_dims ->
  np_random_randint 0 101 n_dims (World h fs o flt clk ent dr out)
  = (Ok (sample_row ent dr (Z.to_nat n_dims)),
     World h fs o flt clk ent (dr + Z.to_nat n_dims)%nat out).
Proof.
  intros Hd. unfold np_random_randint.
  change (101 <=? 0) with false. cbv iota.
  destruct (Z.ltb_spec n_dims 0) as [Hneg | _]; [lia |].
  reflexivity.
Qed.

Lemma randint_negative n_dims w :
  n_dims < 0 ->
  np_random_randint 0 101 n_dims w
  = (Raise (ValueError "negative dimensions are not allowed"), w).
Proof.
  intros Hd. unfold np_random_randint.
  change (101 <=? 0) with false. cbv iota.
  destruct (Z.ltb_spec n_dims 0) as [_ | Hpos]; [reflexivity | lia].
Qed.

(** The row loop, from any point of the file. *)
Lemma rows_loop fd path n_dims o out :
  0 <= n_dims ->
  o !! fd = Some (TextIO path (Some EmptyString)) ->
  forall (l : list Z) fs c clk dr,
    fs !! path = Some c ->
    for_each l (fun _ =>
      values ← np_random_randint 0 101 n_dims;
      csv_writerow (csv_writer fd) (PyInt <$> values))
      (World h fs o flt clk ent dr out)
    = (Ok tt,
       World h
         (<[path := c +:+ terminated CRLF
               ((fun row => comma_line (str_of_Z <$> row))
                  <$> sample_rows ent dr (Z.to_nat n_dims) (length l))]> fs)
         o flt (clk + length l)%nat ent
         (dr + length l * Z.to_nat n_dims)%nat out).
Proof.
  intros Hd Ho l.
  induction l as [|x l IH]; intros fs c clk dr Hc.
  - simpl. unfold ret. rewrite str_app_nil_r, insert_id by assumption.
    now rewrite !Nat.add_0_r.
  - simpl for_each.
    erewrite bind_ok; cycle 1.
    { erewrite bind_ok by (apply randint_ok; assumption).
      unfold csv_writerow, csv_writer.
      apply file_write_ok; eassumption. }
    rewrite (IH _ _ _ _ (lookup_insert_eq _ _ _)).
    rewrite insert_insert_eq, csv_record_ints.
    simpl length. simpl sample_rows. rewrite fmap_cons. simpl terminated.
    rewrite !str_app_assoc.
    do 2 f_equal; lia.
Qed.

End FaultFree.

Lemma range_length (n : Z) : length (range n) = Z.to_nat n.
Proof. unfold range. now rewrite length_fmap, length_seq. Qed.

Lemma range_nonpos (n : Z) : n <= 0 -> range n = [].
Proof. intros H. unfold range. now replace (Z.to_nat n) with O by lia. Qed.

Lemma range_pos (n : Z) : 1 <= n -> exists l, range n = 0 :: l.
Proof.
  intros H. unfold range.
  destruct (Z.to_nat n) as [|k] eqn:E; [lia |].
  simpl. eauto.
Qed.

Lemma fresh_handle_unused (o : gmap nat text_io) : o !! fresh (dom o) = None.
Proof. apply not_elem_of_dom, is_fresh. Qed.

Lemma close_fresh_handle (o : gmap nat text_io) (io : text_io) :
  delete (fresh (dom o)) (<[fresh (dom o) := io]> o) = o.
Proof. rewrite delete_insert_eq. apply delete_id, fresh_handle_unused. Qed.

(** A call on a machine without I/O faults, with a dimension count that is not
    negative (or with no row to draw), succeeds and leaves [after_generate]. *)
Lemma generate_dataset_ok (filename : string) (n_rows n_dims : Z) (w : world) :
  fault_free w ->
  0 <= n_dims \/ n_rows <= 0 ->
  generate_dataset filename n_rows n_dims w
  = (Ok tt, after_generate filename n_rows n_dims w).
Proof.
  intros Hff Hargs. destruct w as [h fs o flt clk ent dr out].
  unfold fault_free in Hff. simpl in Hff.
  unfold generate_dataset, after_generate. simpl host. simpl files.
  simpl open_files. simpl io_faults. simpl io_clock. simpl entropy.
  simpl drawn. simpl stdout.
  rewrite (bind_ok _ _ _
    (World h
       (<[filename := terminated CRLF (dataset_lines ent dr n_rows n_dims)]> fs)
       o flt (clk + Z.to_nat n_rows + 3)%nat ent
       (dr + Z.to_nat n_rows * Z.to_nat n_dims)%nat out) tt); [reflexivity |].
  unfold with_open. rewrite open_w_ok by assumption.
  set (fd := fresh (dom o)).
  assert (Hfd : <[fd := TextIO filename (Some EmptyString)]> o !! fd
                = Some (TextIO filename (Some EmptyString)))
    by apply lookup_insert_eq.
  erewrite bind_ok; cycle 1.
  { unfold csv_writerow, csv_writer.
    eapply file_write_ok; [assumption | exact Hfd | apply lookup_insert_eq]. }
  rewrite csv_record_headers, insert_insert_eq, str_app_nil_l.
  assert (Hloop :
    for_each (range n_rows) (fun _ =>
      values ← np_random_randint 0 101 n_dims;
      csv_writerow (csv_writer fd) (PyInt <$> values))
      (World h (<[filename := comma_line (column_names n_dims) +:+ CRLF]> fs)
             (<[fd := TextIO filename (Some EmptyString)]> o)
             flt (S (S clk)) ent dr out)
    = (Ok tt,
       World h
         (<[filename :=
              terminated CRLF (dataset_lines ent dr n_rows n_dims)]> fs)
         (<[fd := TextIO filename (Some EmptyString)]> o)
         flt (S (S clk) + Z.to_nat n_rows)%nat ent
         (dr + Z.to_nat n_rows * Z.to_nat n_dims)%nat out)).
  { destruct (Z.le_gt_cases 0 n_dims) as [Hd | Hd].
    - erewrite rows_loop;
        [ | assumption | assumption | exact Hfd | apply lookup_insert_eq ].
      rewrite insert_insert_eq, range_length, str_app_assoc. reflexivity.
    - assert (Hr : n_rows <= 0) by lia.
      rewrite (range_nonpos _ Hr). simpl for_each. unfold ret.
      unfold dataset_lines, data_lines.
      replace (Z.to_nat n_rows) with O by lia. simpl.
      now rewrite str_app_nil_r, !Nat.add_0_r. }
  rewrite Hloop.
  erewrite file_close_ok by (assumption || exact Hfd).
  unfold fd. rewrite close_fresh_handle.
  do 2 f_equal. lia.
Qed.

(** With a negative dimension count and a row to draw, the first sample
    raises after the file has been truncated and the empty header written. *)
Lemma generate_dataset_negative_dims
    (filename : string) (n_rows n_dims : Z) (w : world) :
  fault_free w ->
  n_dims < 0 -> 1 <= n_rows ->
  generate_dataset filename n_rows n_dims w
  = (Raise (ValueError "negative dimensions are not allowed"),
     after_failed_generate filename w).
Proof.
  intros Hff Hd Hr. destruct w as [h fs o flt clk ent dr out].
  unfold fault_free in Hff. simpl in Hff.
  unfold generate_dataset, after_failed_generate. simpl host. simpl files.
  simpl open_files. simpl io_faults. simpl io_clock. simpl entropy.
  simpl drawn. simpl stdout.
  rewrite (bind_raise _ _ _
    (World h (<[filename := CRLF]> fs) o flt (clk + 3)%nat ent dr out)
    (ValueError "negative dimensions are not allowed")); [reflexivity |].
  unfold with_open. rewrite open_w_ok by assumption.
  set (fd := fresh (dom o)).
  assert (Hfd : <[fd := TextIO filename (Some EmptyString)]> o !! fd
                = Some (TextIO filename (Some EmptyString)))
    by apply lookup_insert_eq.
  erewrite bind_ok; cycle 1.
  { unfold csv_writerow, csv_writer.
    eapply file_write_ok; [assumption | exact Hfd | apply lookup_insert_eq]. }
  rewrite (range_nonpos n_dims) by lia.
  destruct (range_pos n_rows Hr) as [l ->].
  simpl for_each.
  erewrite bind_raise; cycle 1.
  { apply bind_raise, randint_negative. assumption. }
  erewrite file_close_ok by (assumption || exact Hfd).
  unfold fd. rewrite close_fresh_handle, insert_insert_eq.
  do 2 f_equal. lia.
Qed.

(** ** Samples and column names *)

Lemma bounded_range (raw : Z) : 0 <= bounded 0 101 raw <= 100.
Proof.
  unfold bounded. change (101 - 0) with 101.
  pose proof (Z.mod_pos_bound raw 101 eq_refl). lia.
Qed.

Lemma bounded_reaches (v : Z) : 0 <= v <= 100 -> bounded 0 101 v = v.
Proof.
  intros H. unfold bounded. change (101 - 0) with 101.
  rewrite Z.mod_small; lia.
Qed.

Lemma sample_row_length ent start n : length (sample_row ent start n) = n.
Proof. unfold sample_row. now rewrite length_fmap, length_seq. Qed.

Lemma sample_row_lookup ent start n j :
  (j < n)%nat ->
  sample_row ent start n !! j = Some (bounded 0 101 (ent (start + j)%nat)).
Proof.
  intros H. unfold sample_row.
  now rewrite list_lookup_fmap, lookup_seq_lt.
Qed.

Lemma sample_row_range ent start n :
  Forall (fun z => 0 <= z <= 100) (sample_row ent start n).
Proof.
  unfold sample_row. apply Forall_fmap, Forall_true.
  intros k. apply bounded_range.
Qed.

Lemma sample_rows_length ent start n rows :
  length (sample_rows ent start n rows) = rows.
Proof.
  revert start. induction rows as [|r IH]; intros start; simpl; [reflexivity |].
  now rewrite IH.
Qed.

Lemma sample_rows_lookup ent start n rows i :
  (i < rows)%nat ->
  sample_rows ent start n rows !! i = Some (sample_row ent (start + i * n) n).
Proof.
  revert start i. induction rows as [|r IH]; intros start i Hi; [lia |].
  destruct i as [|i]; simpl.
  - now rewrite Nat.add_0_r.
  - rewrite IH by lia. do 2 f_equal. lia.
Qed.

Lemma sample_rows_elem ent start n rows row :
  row ∈ sample_rows ent start n rows -> exists s, row = sample_row ent s n.
Proof.
  revert start. induction rows as [|r IH]; intros start H; simpl in H.
  - now apply not_elem_of_nil in H.
  - apply elem_of_cons in H as [-> | H]; eauto.
Qed.

Lemma column_names_length (n_dims : Z) :
  length (column_names n_dims) = Z.to_nat n_dims.
Proof. unfold column_names. now rewrite length_fmap, range_length. Qed.

Lemma column_names_lookup (n_dims : Z) (j : nat) :
  (j < Z.to_nat n_dims)%nat ->
  column_names n_dims !! j = Some ("dimension_" +:+ str_of_Z (Z.of_nat j + 1)).
Proof.
  intros H. unfold column_names, range.
  now rewrite !list_lookup_fmap, lookup_seq_lt.
Qed.

Lemma data_lines_length ent start n_rows n_dims :
  length (data_lines ent start n_rows n_dims) = Z.to_nat n_rows.
Proof. unfold data_lines. now rewrite length_fmap, sample_rows_length. Qed.

Lemma data_lines_lookup ent start n_rows n_dims i :
  (i < Z.to_nat n_rows)%nat ->
  data_lines ent start n_rows n_dims !! i
  = Some (comma_line
            (str_of_Z <$> sample_row ent (start + i * Z.to_nat n_dims)
                                     (Z.to_nat n_dims))).
Proof.
  intros H. unfold data_lines.
  now rewrite list_lookup_fmap, sample_rows_lookup.
Qed.

Lemma data_line_fields (row : list Z) :
  csv_fields (comma_line (str_of_Z <$> row)) = str_of_Z <$> row.
Proof. apply csv_fields_comma_line, numerals_plain. Qed.

Lemma header_fields (n_dims : Z) :
  csv_fields (comma_line (column_names n_dims)) = column_names n_dims.
Proof. apply csv_fields_comma_line, column_names_plain. Qed.

(** What is on disk after a successful call, and how it reads back. *)
Lemma generated_file (filename : string) (n_rows n_dims : Z) (w : world) :
  fault_free w ->
  0 <= n_dims \/ n_rows <= 0 ->
  generate_dataset filename n_rows n_dims w
  = (Ok tt, after_generate filename n_rows n_dims w)
  /\ files (after_generate filename n_rows n_dims w) !! filename
     = Some (terminated CRLF
               (dataset_lines (entropy w) (drawn w) n_rows n_dims))
  /\ splitlines (terminated CRLF
                   (dataset_lines (entropy w) (drawn w) n_rows n_dims))
     = dataset_lines (entropy w) (drawn w) n_rows n_dims.
Proof.
  intros Hff Hargs. split; [now apply generate_dataset_ok |].
  split; [apply lookup_insert_eq |].
  apply splitlines_terminated, dataset_lines_one_line.
Qed.

(** The [i]-th data row of the file, and the fields it reads back as: the
    samples of that row in the order they were drawn. *)
Lemma data_row_reads_back ent start n_rows n_dims i :
  (i < Z.to_nat n_rows)%nat ->
  exists line,
    dataset_lines ent start n_rows n_dims !! S i = Some line
    /\ csv_fields line
       = str_of_Z <$> sample_row ent (start + i * Z.to_nat n_dims)
                                 (Z.to_nat n_dims).
Proof.
  intros Hi. eexists. split.
  - unfold dataset_lines. simpl. now apply data_lines_lookup.
  - apply data_line_fields.
Qed.

(** Every field of every data row is the numeral of a bounded draw. *)
Lemma data_lines_cells ent start n_rows n_dims line field :
  line ∈ data_lines ent start n_rows n_dims ->
  field ∈ csv_fields line ->
  exists raw, field = str_of_Z (bounded 0 101 raw).
Proof.
  unfold data_lines. intros Hline Hfield.
  apply list_elem_of_fmap in Hline as (row & -> & Hrow).
  rewrite data_line_fields in Hfield.
  apply list_elem_of_fmap in Hfield as (z & -> & Hz).
  apply sample_rows_elem in Hrow as (s & ->).
  unfold sample_row in Hz.
  apply list_elem_of_fmap in Hz as (k & -> & _). eauto.
Qed.

(** ** The claims *)

(** C1. For every positive row count and dimension count, and when no I/O
    operation fails, the call returns normally and the file it leaves holds
    exactly one header line followed by exactly [n_rows] data lines, every
    one of them terminated: it reads back as [n_rows + 1] lines, with nothing
    after the last terminator. *)
Theorem C1_line_count (filename : string) (n_rows n_dims : Z) (w : world) :
  fault_free w -> 0 < n_rows -> 0 < n_dims ->
  exists w' content header rows,
    generate_dataset filename n_rows n_dims w = (Ok tt, w')
    /\ files w' !! filename = Some content
    /\ content = terminated CRLF (header :: rows)
    /\ splitlines content = header :: rows
    /\ Z.of_nat (length rows) = n_rows
    /\ Z.of_nat (length (splitlines content)) = n_rows + 1.
Proof.
  intros Hff Hr Hd.
  destruct (generated_file filename n_rows n_dims w Hff) as (Hrun & Hfile & Hread);
    [lia |].
  exists (after_generate filename n_rows n_dims w).
  exists (terminated CRLF (dataset_lines (entropy w) (drawn w) n_rows n_dims)).
  exists (comma_line (column_names n_dims)).
  exists (data_lines (entropy w) (drawn w) n_rows n_dims).
  repeat split; try assumption.
  - rewrite data_lines_length. lia.
  - rewrite Hread. unfold dataset_lines. simpl length.
    rewrite data_lines_length. lia.
Qed.

Lemma C1_line_count_witness :
  exists w' content header rows,
    generate_dataset "t1.csv" 3 2 (demo_world Posix) = (Ok tt, w')
    /\ files w' !! "t1.csv" = Some content
    /\ content = terminated CRLF (header :: rows)
    /\ splitlines content = header :: rows
    /\ Z.of_nat (length rows) = 3
    /\ Z.of_nat (length (splitlines content)) = 3 + 1.
Proof.
  apply (C1_line_count "t1.csv" 3 2 (demo_world Posix));
    [intros k; reflexivity | reflexivity | reflexivity].
Defined.

(** C2. For every positive dimension count [n], the first line of the file is
    the comma-separated sequence [dimension_1, ..., dimension_n]: it reads back
    as exactly [n] fields, and the [k]-th of them (counting from 1) is
    ["dimension_" + str(k)]. *)
Theorem C2_header (filename : string) (n_rows n_dims : Z) (w : world) :
  fault_free w -> 0 < n_dims ->
  exists w' content header rest,
    generate_dataset filename n_rows n_dims w = (Ok tt, w')
    /\ files w' !! filename = Some content
    /\ splitlines content = header :: rest
    /\ header = comma_line (csv_fields header)
    /\ Z.of_nat (length (csv_fields header)) = n_dims
    /\ forall k, 1 <= k <= n_dims ->
         csv_fields header !! Z.to_nat (k - 1)
         = Some ("dimension_" +:+ str_of_Z k).
Proof.
  intros Hff Hd.
  destruct (generated_file filename n_rows n_dims w Hff) as (Hrun & Hfile & Hread);
    [lia |].
  exists (after_generate filename n_rows n_dims w).
  exists (terminated CRLF (dataset_lines (entropy w) (drawn w) n_rows n_dims)).
  exists (comma_line (column_names n_dims)).
  exists (data_lines (entropy w) (drawn w) n_rows n_dims).
  rewrite header_fields, column_names_length.
  repeat split; try assumption; [lia |].
  intros k Hk. rewrite column_names_lookup by lia.
  do 3 f_equal. lia.
Qed.

Lemma C2_header_witness :
  exists w' content header rest,
    generate_dataset "t2.csv" 1 5 (demo_world Windows) = (Ok tt, w')
    /\ files w' !! "t2.csv" = Some content
    /\ splitlines content = header :: rest
    /\ header = comma_line (csv_fields header)
    /\ Z.of_nat (length (csv_fields header)) = 5
    /\ forall k, 1 <= k <= 5 ->
         csv_fields header !! Z.to_nat (k - 1)
         = Some ("dimension_" +:+ str_of_Z k).
Proof.
  apply (C2_header "t2.csv" 1 5 (demo_world Windows));
    [intros k; reflexivity | reflexivity].
Defined.

(** C4. For every positive row count and dimension count, the header and
    every data line read back as exactly [n_dims] fields, and the columns
    line up: the fields of the header are the column names in order, and the
    fields of data row [i] are the samples drawn for that row, in the order
    they were drawn, so the [j]-th sample stands under the [j]-th name. *)
Theorem C4_row_width (filename : string) (n_rows n_dims : Z) (w : world) :
  fault_free w -> 0 < n_rows -> 0 < n_dims ->
  exists w' content header rows,
    generate_dataset filename n_rows n_dims w = (Ok tt, w')
    /\ files w' !! filename = Some content
    /\ splitlines content = header :: rows
    /\ csv_fields header = column_names n_dims
    /\ length (csv_fields header) = Z.to_nat n_dims
    /\ Forall (fun row => length (csv_fields row) = length (csv_fields header))
              rows
    /\ forall i, (i < Z.to_nat n_rows)%nat ->
         exists row,
           rows !! i = Some row
           /\ csv_fields row
              = str_of_Z <$> sample_row (entropy w)
                               (drawn w + i * Z.to_nat n_dims)
                               (Z.to_nat n_dims).
Proof.
  intros Hff Hr Hd.
  destruct (generated_file filename n_rows n_dims w Hff) as (Hrun & Hfile & Hread);
    [lia |].
  exists (after_generate filename n_rows n_dims w).
  exists (terminated CRLF (dataset_lines (entropy w) (drawn w) n_rows n_dims)).
  exists (comma_line (column_names n_dims)).
  exists (data_lines (entropy w) (drawn w) n_rows n_dims).
  rewrite header_fields, column_names_length.
  repeat split; try assumption.
  - unfold data_lines. apply Forall_fmap, Forall_forall.
    intros row Hrow. simpl.
    apply sample_rows_elem in Hrow as (s & ->).
    now rewrite data_line_fields, length_fmap, sample_row_length.
  - intros i Hi. eexists. split; [now apply data_lines_lookup |].
    apply data_line_fields.
Qed.

Lemma C4_row_width_witness :
  exists w' content header rows,
    generate_dataset "t1.csv" 3 2 (demo_world Posix) = (Ok tt, w')
    /\ files w' !! "t1.csv" = Some content
    /\ splitlines content = header :: rows
    /\ csv_fields header = column_names 2
    /\ length (csv_fields header) = Z.to_nat 2
    /\ Forall (fun row => length (csv_fields row) = length (csv_fields header))
              rows
    /\ forall i, (i < Z.to_nat 3)%nat ->
         exists row,
           rows !! i = Some row
           /\ csv_fields row
              = str_of_Z <$> sample_row (entropy (demo_world Posix))
                               (drawn (demo_world Posix) + i * Z.to_nat 2)
                               (Z.to_nat 2).
Proof.
  apply (C4_row_width "t1.csv" 3 2 (demo_world Posix));
    [intros k; reflexivity | reflexivity | reflexivity].
Defined.

(** ** What no effect of the script changes *)

(** Closes [same_machine] goals between worlds that differ in other fields. *)
Ltac same_fields := repeat split; reflexivity.

Lemma same_machine_refl (w : world) : same_machine w w.
Proof. same_fields. Qed.

Lemma same_machine_trans (w1 w2 w3 : world) :
  same_machine w1 w2 -> same_machine w2 w3 -> same_machine w1 w3.
Proof.
  intros (? & ? & ? & ?) (? & ? & ? & ?). repeat split; congruence.
Qed.

Lemma steady_ret {A} (a : A) : steady (ret a).
Proof. intros w. apply same_machine_refl. Qed.

Lemma steady_raise {A} (e : exn) : steady (@raise A e).
Proof. intros w. apply same_machine_refl. Qed.

Lemma steady_bind {A B} (m : M A) (k : A -> M B) :
  steady m -> (forall a, steady (k a)) -> steady (m ≫= k).
Proof.
  intros Hm Hk w. rewrite bind_run.
  specialize (Hm w). destruct (m w) as [[a | e] w']; simpl in Hm.
  - eapply same_machine_trans; [exact Hm | apply Hk].
  - exact Hm.
Qed.

Lemma steady_for_each {A} (l : list A) (body : A -> M unit) :
  (forall x, steady (body x)) -> steady (for_each l body).
Proof.
  intros Hbody. induction l as [|x l IH]; simpl.
  - apply steady_ret.
  - apply steady_bind; [apply Hbody | intros _; exact IH].
Qed.

Lemma steady_io_attempt : steady io_attempt.
Proof.
  intros w. unfold io_attempt.
  destruct (io_faults w (io_clock w)); same_fields.
Qed.

Lemma steady_file_write (fd : nat) (s : string) : steady (file_write fd s).
Proof.
  intros w. unfold file_write.
  destruct (open_files w !! fd) as [io |]; [ | apply same_machine_refl].
  revert w. apply steady_bind; [apply steady_io_attempt |].
  intros _ w. same_fields.
Qed.

Lemma steady_randint (low high size : Z) :
  steady (np_random_randint low high size).
Proof.
  intros w. unfold np_random_randint.
  destruct (high <=? low); [apply same_machine_refl |].
  destruct (size <? 0); same_fields.
Qed.

Lemma steady_print (line : string) : steady (print line).
Proof. intros w. same_fields. Qed.

(** [open] either raises and leaves the machine as it was, or enters a
    handle that was not in the table. *)
Lemma open_w_cases (filename : string) (nl : option string) (w : world) :
  (exists e w', open_w filename nl w = (Raise e, w') /\ same_machine w w')
  \/ open_w filename nl w
     = (Ok (fresh (dom (open_files w))),
        World (host w) (<[filename := EmptyString]> (files w))
              (<[fresh (dom (open_files w)) := TextIO filename nl]>
                 (open_files w))
              (io_faults w) (S (io_clock w)) (entropy w) (drawn w) (stdout w)).
Proof.
  unfold open_w. destruct (legal_newline nl); cbn [negb].
  - unfold mbind, M_bind, bind, io_attempt.
    destruct (io_faults w (io_clock w)); [left | right; reflexivity].
    do 2 eexists. split; [reflexivity | same_fields].
  - left. do 2 eexists. split; [reflexivity | same_fields].
Qed.

(** [close] on an open handle takes it out of the table, whether or not the
    flush fails. *)
Lemma file_close_releases (fd : nat) (io : text_io) (w : world) :
  open_files w !! fd = Some io ->
  open_files (file_close fd w).2 = delete fd (open_files w)
  /\ host (file_close fd w).2 = host w
  /\ io_faults (file_close fd w).2 = io_faults w
  /\ entropy (file_close fd w).2 = entropy w.
Proof.
  intros Hfd. unfold file_close. rewrite Hfd. unfold io_attempt. simpl.
  destruct (io_faults w (io_clock w)); repeat split; reflexivity.
Qed.

(** The [with] block hands the handle back whatever its body does. *)
Lemma steady_with_open {A} (filename : string) (nl : option string)
    (body : nat -> M A) :
  (forall fd, steady (body fd)) -> steady (with_open filename nl body).
Proof.
  intros Hbody w. unfold with_open.
  destruct (open_w_cases filename nl w) as [(e & w' & -> & Hsame) | ->];
    [exact Hsame |].
  match goal with |- context [body ?fd ?w1] =>
    pose proof (Hbody fd w1) as Hs; destruct (body fd w1) as [r w2]
  end.
  simpl in Hs. destruct Hs as (Hh & Ho & Hf & He).
  destruct (file_close_releases (fresh (dom (open_files w)))
              (TextIO filename nl) w2) as (Ho' & Hh' & Hf' & He').
  { rewrite Ho. apply lookup_insert_eq. }
  rewrite Ho in Ho'. simpl in Ho'. rewrite close_fresh_handle in Ho'.
  destruct (file_close _ w2) as [[[] | e] w3]; simpl in *;
    repeat split; congruence.
Qed.

Lemma steady_generate_dataset (filename : string) (n_rows n_dims : Z) :
  steady (generate_dataset filename n_rows n_dims).
Proof.
  unfold generate_dataset.
  apply steady_bind; [ | intros _; apply steady_print].
  apply steady_with_open. intros fd.
  apply steady_bind; [apply steady_file_write | intros _].
  apply steady_for_each. intros _.
  apply steady_bind; [apply steady_randint | intros values].
  apply steady_file_write.
Qed.

Lemma fault_free_later (w w' : world) :
  same_machine w w' -> fault_free w -> fault_free w'.
Proof. intros (_ & _ & Hf & _) Hff k. rewrite Hf. apply Hff. Qed.

(** C7. With a row count of zero and a positive dimension count nothing is
    rejected: the call returns normally, prints its confirmation, and leaves
    a file that holds the header line and nothing else. *)
Theorem C7_zero_rows (filename : string) (n_dims : Z) (w : world) :
  fault_free w -> 0 < n_dims ->
  exists w' header,
    generate_dataset filename 0 n_dims w = (Ok tt, w')
    /\ files w' !! filename = Some (header +:+ CRLF)
    /\ splitlines (header +:+ CRLF) = [header]
    /\ csv_fields header = column_names n_dims
    /\ stdout w' = stdout w ++ [confirmation filename 0 n_dims].
Proof.
  intros Hff Hd.
  destruct (generated_file filename 0 n_dims w Hff) as (Hrun & Hfile & Hread);
    [lia |].
  exists (after_generate filename 0 n_dims w), (comma_line (column_names n_dims)).
  unfold dataset_lines, data_lines in Hfile, Hread.
  simpl in Hfile, Hread. rewrite str_app_nil_r in Hfile, Hread.
  rewrite header_fields. repeat split; assumption || reflexivity.
Qed.

Lemma C7_zero_rows_witness :
  exists w' header,
    generate_dataset "t0.csv" 0 2 (demo_world Posix) = (Ok tt, w')
    /\ files w' !! "t0.csv" = Some (header +:+ CRLF)
    /\ splitlines (header +:+ CRLF) = [header]
    /\ csv_fields header = column_names 2
    /\ stdout w' = stdout (demo_world Posix) ++ [confirmation "t0.csv" 0 2].
Proof.
  apply (C7_zero_rows "t0.csv" 2 (demo_world Posix));
    [intros k; reflexivity | reflexivity].
Defined.

(** C8. Calling again on the same name replaces the file: whatever the first
    call was asked for and however it ended, after a second call with positive
    arguments the file holds exactly the header and the [n_rows2] rows of the
    second call, reads back as [n_rows2 + 1] lines, and is what the second call
    would have written had the file system been empty. *)
Theorem C8_overwrite (filename : string) (n_rows1 n_dims1 n_rows2 n_dims2 : Z)
    (w : world) :
  fault_free w -> 0 < n_rows2 -> 0 < n_dims2 ->
  exists w2 content,
    generate_dataset filename n_rows2 n_dims2
      (generate_dataset filename n_rows1 n_dims1 w).2 = (Ok tt, w2)
    /\ files w2 !! filename = Some content
    /\ content
       = terminated CRLF
           (dataset_lines (entropy w)
              (drawn (generate_dataset filename n_rows1 n_dims1 w).2)
              n_rows2 n_dims2)
    /\ Z.of_nat (length (splitlines content)) = n_rows2 + 1
    /\ files (generate_dataset filename n_rows2 n_dims2
                (with_files ∅ (generate_dataset filename n_rows1 n_dims1 w).2)).2
         !! filename
       = Some content.
Proof.
  intros Hff Hr Hd.
  pose proof (steady_generate_dataset filename n_rows1 n_dims1 w) as Hsame.
  set (w1 := (generate_dataset filename n_rows1 n_dims1 w).2) in *.
  assert (Hff1 : fault_free w1) by (eapply fault_free_later; eassumption).
  assert (Hent : entropy w1 = entropy w) by apply Hsame.
  destruct (generated_file filename n_rows2 n_dims2 w1 Hff1)
    as (Hrun & Hfile & Hread); [lia |].
  assert (Hff0 : fault_free (with_files ∅ w1)) by exact Hff1.
  destruct (generated_file filename n_rows2 n_dims2 (with_files ∅ w1) Hff0)
    as (Hrun0 & Hfile0 & _); [lia |].
  exists (after_generate filename n_rows2 n_dims2 w1).
  eexists. split; [exact Hrun |]. split; [exact Hfile |].
  rewrite Hent. split; [reflexivity |]. split.
  - rewrite <- Hent, Hread. unfold dataset_lines. simpl length.
    rewrite data_lines_length. lia.
  - rewrite Hrun0, <- Hent. exact Hfile0.
Qed.

Lemma C8_overwrite_witness :
  exists w2 content,
    generate_dataset "t1.csv" 1 2
      (generate_dataset "t1.csv" 3 2 (demo_world Posix)).2 = (Ok tt, w2)
    /\ files w2 !! "t1.csv" = Some content
    /\ content
       = terminated CRLF
           (dataset_lines (entropy (demo_world Posix))
              (drawn (generate_dataset "t1.csv" 3 2 (demo_world Posix)).2)
              1 2)
    /\ Z.of_nat (length (splitlines content)) = 1 + 1
    /\ files (generate_dataset "t1.csv" 1 2
                (with_files ∅
                   (generate_dataset "t1.csv" 3 2 (demo_world Posix)).2)).2
         !! "t1.csv"
       = Some content.
Proof.
  apply (C8_overwrite "t1.csv" 3 2 1 2 (demo_world Posix));
    [intros k; reflexivity | reflexivity | reflexivity].
Defined.

(** C9. Whatever the arguments, whatever the machine and however the call
    ends (normally, or with an exception from the open, from a write that
    fails partway through the rows, from the sampling step or from the close),
    the handles open after the call are those that were open before it: the
    handle the call acquires is released on every exit path. *)
Theorem C9_handle_released (filename : string) (n_rows n_dims : Z)
    (w w' : world) (outcome : result unit) :
  generate_dataset filename n_rows n_dims w = (outcome, w') ->
  open_files w' = open_files w.
Proof.
  intros Hrun.
  pose proof (steady_generate_dataset filename n_rows n_dims w) as Hsame.
  rewrite Hrun in Hsame. apply Hsame.
Qed.

Lemma C9_handle_released_witness :
  generate_dataset "t.csv" 3 2 flaky_world = (Raise OSError, flaky_after)
  /\ open_files flaky_after = open_files flaky_world.
Proof.
  assert (Hrun : generate_dataset "t.csv" 3 2 flaky_world
                 = (Raise OSError, flaky_after))
    by (vm_compute; reflexivity).
  split; [exact Hrun |].
  exact (C9_handle_released "t.csv" 3 2 flaky_world flaky_after
           (Raise OSError) Hrun).
Defined.

(** C10. With a negative dimension count and at least one row, the call
    fails with the sampling step's [ValueError], but only after the file has
    been opened, truncated and given an empty header line: whatever the file
    held before, it now holds a lone line terminator, which reads back as one
    empty line.  Nothing is printed and the handle is released. *)
Theorem C10_negative_dims (filename : string) (n_rows n_dims : Z) (w : world) :
  fault_free w -> n_dims < 0 -> 1 <= n_rows ->
  exists w',
    generate_dataset filename n_rows n_dims w
    = (Raise (ValueError "negative dimensions are not allowed"), w')
    /\ files w' = <[filename := CRLF]> (files w)
    /\ files w' !! filename = Some (terminated CRLF [EmptyString])
    /\ splitlines CRLF = [EmptyString]
    /\ stdout w' = stdout w
    /\ open_files w' = open_files w.
Proof.
  intros Hff Hd Hr.
  exists (after_failed_generate filename w).
  split; [now apply generate_dataset_negative_dims |].
  repeat split. apply lookup_insert_eq.
Qed.

Lemma C10_negative_dims_witness :
  exists w',
    generate_dataset "neg.csv" 1 (-1) (demo_world Posix)
    = (Raise (ValueError "negative dimensions are not allowed"), w')
    /\ files w' = <["neg.csv" := CRLF]> (files (demo_world Posix))
    /\ files w' !! "neg.csv" = Some (terminated CRLF [EmptyString])
    /\ splitlines CRLF = [EmptyString]
    /\ stdout w' = stdout (demo_world Posix)
    /\ open_files w' = open_files (demo_world Posix).
Proof.
  apply (C10_negative_dims "neg.csv" 1 (-1) (demo_world Posix));
    [intros k; reflexivity | reflexivity | discriminate].
Defined.

(** *** Line terminators *)

Lemma lf_terminated_no_cr (rows : list string) :
  Forall one_line rows -> occurs CR (terminated (str1 LF) rows) = false.
Proof.
  induction 1 as [|l rows [Hcr _] _ IH]; [reflexivity |].
  simpl terminated. rewrite !occurs_app, Hcr, IH. reflexivity.
Qed.

Lemma crlf_terminated_has_cr (l : string) (rows : list string) :
  occurs CR (terminated CRLF (l :: rows)) = true.
Proof.
  simpl terminated. rewrite !occurs_app.
  change (occurs CR CRLF) with true.
  now rewrite orb_true_r.
Qed.

Lemma crlf_rows_not_lf_rows (l : string) (rows : list string) :
  ~ rows_end_with (str1 LF) (terminated CRLF (l :: rows)).
Proof.
  intros (rows' & Hrows' & Heq).
  apply (f_equal (occurs CR)) in Heq.
  rewrite crlf_terminated_has_cr, lf_terminated_no_cr in Heq by assumption.
  discriminate.
Qed.

(** C6, as stated, fails: on a POSIX host, where [os.linesep] is a line feed,
    the file written by [generate_dataset "t1.csv" 3 2] is not a sequence of
    lines each followed by [os.linesep]. *)
Lemma C6_counterexample :
  ~ (exists content,
       files (generate_dataset "t1.csv" 3 2 (demo_world Posix)).2 !! "t1.csv"
       = Some content
       /\ rows_end_with (os_linesep (host (demo_world Posix))) content).
Proof.
  intros (content & Hfile & Hrows).
  destruct (generated_file "t1.csv" 3 2 (demo_world Posix))
    as (Hrun & Hfile' & _); [intros k; reflexivity | lia |].
  rewrite Hrun in Hfile. cbn [snd] in Hfile.
  rewrite Hfile' in Hfile.
  assert (Hcontent : content
    = terminated CRLF
        (dataset_lines (entropy (demo_world Posix)) (drawn (demo_world Posix))
           3 2)) by congruence.
  rewrite Hcontent in Hrows. unfold dataset_lines in Hrows.
  exact (crlf_rows_not_lf_rows _ _ Hrows).
Qed.

(** C6, amended. On every host platform, every row of the file (header and
    data rows) is followed by a carriage return and a line feed, the line
    terminator of the csv writer: the file is opened with [newline=''], so
    nothing is translated to the platform's own convention.  In particular
    the rows are never terminated by a bare line feed. *)
Theorem C6_rows_end_with_crlf (filename : string) (n_rows n_dims : Z)
    (w : world) :
  fault_free w -> 0 < n_rows -> 0 < n_dims ->
  exists w' content,
    generate_dataset filename n_rows n_dims w = (Ok tt, w')
    /\ files w' !! filename = Some content
    /\ rows_end_with CRLF content
    /\ Z.of_nat (length (splitlines content)) = n_rows + 1
    /\ ~ rows_end_with (str1 LF) content.
Proof.
  intros Hff Hr Hd.
  destruct (generated_file filename n_rows n_dims w Hff) as (Hrun & Hfile & Hread);
    [lia |].
  exists (after_generate filename n_rows n_dims w). eexists.
  split; [exact Hrun |]. split; [exact Hfile |]. split; [ | split].
  - eexists. split; [apply dataset_lines_one_line | reflexivity].
  - rewrite Hread. unfold dataset_lines. simpl length.
    rewrite data_lines_length. lia.
  - apply crlf_rows_not_lf_rows.
Qed.

Lemma C6_rows_end_with_crlf_witness :
  exists w' content,
    generate_dataset "t1.csv" 3 2 (demo_world Posix) = (Ok tt, w')
    /\ files w' !! "t1.csv" = Some content
    /\ rows_end_with CRLF content
    /\ Z.of_nat (length (splitlines content)) = 3 + 1
    /\ ~ rows_end_with (str1 LF) content.
Proof.
  apply (C6_rows_end_with_crlf "t1.csv" 3 2 (demo_world Posix));
    [intros k; reflexivity | reflexivity | reflexivity].
Defined.

(** ** The driver *)

(** A run of calls with non-negative dimension counts on a machine without
    I/O faults: every call succeeds and prints its confirmation, in order. *)
Lemma calls_run (calls : list (string * Z * Z)) :
  Forall (fun c => 0 <= c.2) calls ->
  forall w, fault_free w ->
    exists w',
      for_each calls (call_with generate_dataset) w = (Ok tt, w')
      /\ stdout w' = stdout w ++ (call_confirmation <$> calls)
      /\ fault_free w'.
Proof.
  induction 1 as [|[[f r] d] calls Hd _ IH]; intros w Hff.
  - exists w. simpl. now rewrite app_nil_r.
  - simpl in Hd. simpl for_each. unfold call_with at 1. simpl.
    rewrite (bind_ok _ _ _ (after_generate f r d w) tt)
      by (apply generate_dataset_ok; [assumption | now left]).
    destruct (IH (after_generate f r d w)) as (w' & Hrun & Hout & Hff');
      [exact Hff |].
    exists w'. split; [exact Hrun |]. split; [ | exact Hff'].
    rewrite Hout. simpl stdout. now rewrite <- app_assoc.
Qed.

(** C5. The driver calls the dataset writer exactly eight times: whatever
    function it is given, running it is running that function on the eight
    entries of [driver_calls] in order and stopping at the first exception.
    The eight entries are the cross product of the dimension counts [10, 20]
    (outer loop) and the row counts [100, 1000, 10000, 100000] (inner loop),
    each with the file name ["dataset_" + dims + "D_" + rows + ".csv"].  On a
    machine without I/O faults the script's driver completes and prints the
    eight confirmations in that order. *)
Theorem C5_driver_calls :
  (forall (generate : string -> Z -> Z -> M unit) (w : world),
     driver_with generate w = for_each driver_calls (call_with generate) w)
  /\ driver = driver_with generate_dataset
  /\ length driver_calls = 8%nat
  /\ driver_calls
     = (dimensions ≫= fun n_dims =>
        sizes ≫= fun size =>
        [("dataset_" +:+ str_of_Z n_dims +:+ "D_" +:+ str_of_Z size +:+ ".csv",
          size, n_dims)])
  /\ (forall w, fault_free w ->
      exists w',
        driver w = (Ok tt, w')
        /\ stdout w' = stdout w ++ (call_confirmation <$> driver_calls)).
Proof.
  assert (Hcalls : forall generate w,
    driver_with generate w = for_each driver_calls (call_with generate) w).
  { intros generate w. cbv.
    repeat match goal with
           | |- context [generate ?f ?r ?d w] =>
               destruct (generate f r d w) as [[[] | ?] ?]
           | |- context [generate ?f ?r ?d ?w1] =>
               is_var w1; destruct (generate f r d w1) as [[[] | ?] ?]
           end; reflexivity. }
  split; [exact Hcalls |]. split; [reflexivity |]. split; [reflexivity |].
  split; [vm_compute; reflexivity |].
  intros w Hff. unfold driver. rewrite Hcalls.
  destruct (calls_run driver_calls) with (w := w) as (w' & Hrun & Hout & _);
    [ | assumption | eauto].
  unfold driver_calls. repeat constructor; simpl; lia.
Qed.

Lemma C5_driver_calls_witness :
  exists w',
    driver (demo_world Posix) = (Ok tt, w')
    /\ stdout w'
       = stdout (demo_world Posix) ++ (call_confirmation <$> driver_calls).
Proof.
  destruct C5_driver_calls as (_ & _ & _ & _ & Hrun).
  apply (Hrun (demo_world Posix)). intros k. reflexivity.
Defined.

(** ** Worked runs *)

(** [generate_dataset("t1.csv", 3, 2)] on a quiet POSIX machine whose
    generator yields 0, 37, 74, 111, 148, 185 (brought into range). *)
Example run_t1_posix :
  generate_dataset "t1.csv" 3 2 (demo_world Posix)
  = (Ok tt,
     World Posix
       {[ "t1.csv" := "dimension_1,dimension_2" +:+ CRLF +:+ "0,37" +:+ CRLF
                      +:+ "74,10" +:+ CRLF +:+ "47,84" +:+ CRLF ]}
       ∅ (fun _ => false) 6 (fun k => 37 * Z.of_nat k) 6
       ["Generated 3 rows x 2 dimensions in 't1.csv'"]).
Proof. vm_compute. reflexivity. Qed.

(** The same call on Windows writes the same bytes. *)
Example run_t1_windows :
  files (generate_dataset "t1.csv" 3 2 (demo_world Windows)).2
  = files (generate_dataset "t1.csv" 3 2 (demo_world Posix)).2.
Proof. vm_compute. reflexivity. Qed.

(** No column at all: three blank lines. *)
Example run_no_column :
  files (generate_dataset "e.csv" 2 0 (demo_world Posix)).2 !! "e.csv"
  = Some (CRLF +:+ CRLF +:+ CRLF).
Proof. vm_compute. reflexivity. Qed.

(** A negative dimension count with no row to draw goes through. *)
Example run_negative_no_row :
  (generate_dataset "n.csv" 0 (-4) (demo_world Posix)).1 = Ok tt.
Proof. vm_compute. reflexivity. Qed.

(** A field with a comma or a quote would be quoted; the script writes none. *)
Example quoted_field :
  csv_record [PyStr "a,b"; PyInt (-7)]
  = String DQUOTE ("a,b" +:+ String DQUOTE ",-7").
Proof. vm_compute. reflexivity. Qed.

(** With [newline=None] the line feeds would follow the platform, and on
    Windows the writer's terminator would come out with a doubled carriage
    return; with [newline=''] it is written as it is. *)
Example translated_write :
  translate_newlines (lf_written_as Windows None) (str1 LF) = CRLF
  /\ translate_newlines (lf_written_as Windows None) CRLF = String CR CRLF
  /\ translate_newlines (lf_written_as Posix None) CRLF = CRLF
  /\ translate_newlines (lf_written_as Windows (Some EmptyString)) CRLF = CRLF.
Proof. repeat split; reflexivity. Qed.

(** ** Runs on any machine

    The lemmas above follow a run without I/O faults.  The ones below follow
    a run whatever the fault schedule is, on the terms of [file_write] and
    [open_w]: a write that fails leaves nothing of its text, and a failure is
    an [OSError] of the schedule.  The properties drawn from them further
    down are those that do not rest on these two points. *)

Lemma file_write_any h fs o flt clk ent dr out fd path c s :
  o !! fd = Some (TextIO path (Some EmptyString)) ->
  fs !! path = Some c ->
  file_write fd s (World h fs o flt clk ent dr out)
  = if flt clk
    then (Raise OSError, World h fs o flt (S clk) ent dr out)
    else (Ok tt, World h (<[path := c +:+ s]> fs) o flt (S clk) ent dr out).
Proof.
  intros Ho Hc. unfold file_write. simpl open_files. rewrite Ho.
  rewrite bind_run. unfold io_attempt. simpl io_faults. simpl io_clock.
  destruct (flt clk); [reflexivity |].
  simpl. rewrite Hc. simpl. now rewrite translate_newlines_lf.
Qed.

Lemma open_w_any h fs o flt clk ent dr out filename :
  open_w filename (Some EmptyString) (World h fs o flt clk ent dr out)
  = if flt clk
    then (Raise OSError, World h fs o flt (S clk) ent dr out)
    else (Ok (fresh (dom o)),
          World h (<[filename := EmptyString]> fs)
                (<[fresh (dom o) := TextIO filename (Some EmptyString)]> o)
                flt (S clk) ent dr out).
Proof.
  unfold open_w.
  change (negb (legal_newline (Some EmptyString))) with false. cbv iota.
  rewrite bind_run. unfold io_attempt. simpl io_faults. simpl io_clock.
  destruct (flt clk); reflexivity.
Qed.

Lemma file_close_any h fs o flt clk ent dr out fd io :
  o !! fd = Some io ->
  file_close fd (World h fs o flt clk ent dr out)
  = (if flt clk then Raise OSError else Ok tt,
     World h fs (delete fd o) flt (S clk) ent dr out).
Proof.
  intros Ho. unfold file_close. simpl open_files. rewrite Ho.
  unfold io_attempt. simpl. destruct (flt clk); reflexivity.
Qed.

Lemma randint_any n_dims w :
  np_random_randint 0 101 n_dims w
  = if n_dims <? 0 then (Raise sampling_error, w)
    else (Ok (sample_row (entropy w) (drawn w) (Z.to_nat n_dims)),
          with_drawn (drawn w + Z.to_nat n_dims)%nat w).
Proof. reflexivity. Qed.

(** The row loop on any machine: it leaves the first [k] rows appended, all of
    them when it ends normally; it raises nothing but [OSError] and, for a
    negative dimension count, the sampling error; it touches no other file
    and prints nothing. *)
Lemma rows_loop_any fd path n_dims h o flt ent out :
  o !! fd = Some (TextIO path (Some EmptyString)) ->
  forall (l : list Z) fs c clk dr res w',
    fs !! path = Some c ->
    for_each l (fun _ =>
      values ← np_random_randint 0 101 n_dims;
      csv_writerow (csv_writer fd) (PyInt <$> values))
      (World h fs o flt clk ent dr out) = (res, w') ->
    exists k,
      (k <= length l)%nat
      /\ files w' !! path
         = Some (c +:+ terminated CRLF
                   (take k (row_line
                      <$> sample_rows ent dr (Z.to_nat n_dims) (length l))))
      /\ (res = Ok tt -> k = length l)
      /\ (forall e, res = Raise e ->
            e = OSError \/ (e = sampling_error /\ n_dims < 0 /\ l <> []))
      /\ (forall g, g <> path -> files w' !! g = fs !! g)
      /\ stdout w' = out
      /\ open_files w' = o /\ io_faults w' = flt /\ entropy w' = ent
      /\ host w' = h.
Proof.
  intros Ho l. induction l as [|x l IH]; intros fs c clk dr res w' Hc Hrun.
  - simpl in Hrun. injection Hrun as <- <-. exists O. simpl.
    rewrite str_app_nil_r. repeat split; try done.
  - simpl for_each in Hrun. rewrite bind_run, bind_run, randint_any in Hrun.
    destruct (n_dims <? 0) eqn:Hneg.
    { injection Hrun as <- <-. exists O. simpl. rewrite str_app_nil_r.
      apply Z.ltb_lt in Hneg.
      repeat split; try done; try lia.
      intros e [= <-]. right. repeat split; done || lia. }
    unfold csv_writerow, csv_writer in Hrun. simpl with_drawn in Hrun.
    unfold with_drawn in Hrun. simpl in Hrun.
    rewrite (file_write_any _ _ _ _ _ _ _ _ _ _ _ _ Ho Hc) in Hrun.
    destruct (flt clk).
    { injection Hrun as <- <-. exists O. simpl. rewrite str_app_nil_r.
      repeat split; try done; try lia.
      intros e [= <-]. now left. }
    apply IH with (c := c +:+ csv_record
                     (PyInt <$> sample_row ent dr (Z.to_nat n_dims)) +:+ CRLF)
      in Hrun; [ | apply lookup_insert_eq].
    destruct Hrun as (k & Hk & Hfile & Hok & Herr & Hframe & Hout & Hrest).
    exists (S k). simpl length. simpl sample_rows. rewrite fmap_cons.
    simpl take. simpl terminated.
    split; [lia |]. split.
    { rewrite Hfile, csv_record_ints. unfold row_line.
      now rewrite !str_app_assoc. }
    split; [intros Hres; f_equal; now apply Hok |].
    split.
    { intros e He. destruct (Herr e He) as [-> | (-> & Hd & _)];
        [now left | right; repeat split; done]. }
    split; [ | split; assumption].
    intros g Hg. rewrite Hframe by assumption. now apply lookup_insert_ne.
Qed.

Lemma range_nonempty (n : Z) : range n <> [] -> 1 <= n.
Proof.
  intros H. destruct (Z.le_gt_cases n 0) as [Hn | Hn]; [ | lia].
  now rewrite range_nonpos in H.
Qed.

(** A call on any machine.  No file but the named one changes.  Either the
    open failed and nothing changed at all, or the named file holds the first
    [k] lines of the dataset: all of them and a printed confirmation when the
    call ends normally, nothing printed when it raises; and it raises nothing
    but [OSError] and, for a negative dimension count with a row to draw, the
    sampling error. *)
Lemma generate_dataset_any (filename : string) (n_rows n_dims : Z)
    (w w' : world) (res : result unit) :
  generate_dataset filename n_rows n_dims w = (res, w') ->
  (forall g, g <> filename -> files w' !! g = files w !! g)
  /\ ((res = Raise OSError /\ files w' = files w /\ stdout w' = stdout w)
      \/ exists k,
           (k <= S (Z.to_nat n_rows))%nat
           /\ files w' !! filename
              = Some (terminated CRLF
                        (take k (dataset_lines (entropy w) (drawn w)
                                   n_rows n_dims)))
           /\ (res = Ok tt ->
               k = S (Z.to_nat n_rows)
               /\ stdout w' = stdout w ++ [confirmation filename n_rows n_dims])
           /\ (forall e, res = Raise e ->
                 stdout w' = stdout w
                 /\ (e = OSError
                     \/ (e = sampling_error /\ n_dims < 0 /\ 1 <= n_rows)))).
Proof.
  destruct w as [h fs o flt clk ent dr out]. simpl.
  unfold generate_dataset. rewrite bind_run. unfold with_open.
  rewrite open_w_any.
  destruct (flt clk).
  { intros [= <- <-]. simpl. split; [done |]. now left. }
  set (fd := fresh (dom o)).
  assert (Hfd : <[fd := TextIO filename (Some EmptyString)]> o !! fd
                = Some (TextIO filename (Some EmptyString)))
    by apply lookup_insert_eq.
  rewrite bind_run. unfold csv_writerow at 1. unfold csv_writer at 1.
  rewrite (file_write_any _ _ _ _ _ _ _ _ _ _ _ _ Hfd (lookup_insert_eq _ _ _)).
  rewrite csv_record_headers, insert_insert_eq, str_app_nil_l.
  destruct (flt (S clk)).
  { (* the header is not written *)
    rewrite (file_close_any _ _ _ _ _ _ _ _ _ _ Hfd).
    intros Hrun.
    assert (res = Raise OSError /\
            w' = World h (<[filename := EmptyString]> fs)
                       (delete fd (<[fd := TextIO filename (Some EmptyString)]> o))
                       flt (S (S (S clk))) ent dr out) as [-> ->].
    { destruct (flt (S (S clk))); injection Hrun as <- <-; done. }
    simpl. split; [intros g Hg; now apply lookup_insert_ne |].
    right. exists O. simpl. rewrite lookup_insert_eq.
    split; [lia |]. split; [reflexivity |]. split; [done |].
    intros e [= <-]. split; [reflexivity | now left]. }
  match goal with |- context [for_each ?l ?body ?w1] =>
    destruct (for_each l body w1) as [resl wl] eqn:Hloop
  end.
  apply (rows_loop_any fd filename n_dims _ _ _ _ _ Hfd _ _
           (comma_line (column_names n_dims) +:+ CRLF) _ _ _ _
           (lookup_insert_eq _ _ _)) in Hloop.
  destruct Hloop
    as (k & Hk & Hfile & Hok & Herr & Hframe & Hout & Ho & Hflt & Hent & Hh).
  rewrite range_length in Hk, Hfile, Hok.
  destruct wl as [h' fs' o' flt' clk' ent' dr' out']. simpl in *. subst.
  rewrite (file_close_any _ _ _ _ _ _ _ _ _ _ Hfd).
  unfold fd. rewrite close_fresh_handle.
  assert (Hlines :
    fs' !! filename
    = Some (terminated CRLF
              (take (S k) (dataset_lines ent dr n_rows n_dims)))).
  { rewrite Hfile. unfold dataset_lines, data_lines. simpl.
    now rewrite str_app_assoc. }
  assert (Hothers : forall g, g <> filename -> fs' !! g = fs !! g).
  { intros g Hg. rewrite Hframe by assumption. now apply lookup_insert_ne. }
  destruct (flt clk').
  { (* the close fails *)
    intros Hrun.
    assert (res = Raise OSError /\
            w' = World h fs' o flt (S clk') ent dr' out) as [-> ->].
    { destruct resl as [[] | err]; injection Hrun as <- <-; done. }
    simpl. split; [exact Hothers |].
    right. exists (S k).
    split; [lia |]. split; [exact Hlines |]. split; [done |].
    intros e [= <-]. split; [reflexivity | now left]. }
  destruct resl as [[] | err].
  - intros [= <- <-]. simpl. split; [exact Hothers |].
    right. exists (S k). rewrite (Hok eq_refl) in *.
    split; [lia |]. split; [exact Hlines |]. split; [done | done].
  - intros [= <- <-]. simpl. split; [exact Hothers |].
    right. exists (S k). split; [lia |]. split; [exact Hlines |].
    split; [done |].
    intros e' [= <-]. split; [reflexivity |].
    destruct (Herr err eq_refl) as [-> | (-> & Hd & Hl)]; [now left | right].
    repeat split; try done. now apply range_nonempty.
Qed.

(** ** Further properties of [generate_dataset] *)

(** X1. A call changes no file but the one it is given the name of, whatever
    the arguments and whatever fails. *)
Theorem other_files_untouched (filename other : string) (n_rows n_dims : Z)
    (w : world) :
  other <> filename ->
  files (generate_dataset filename n_rows n_dims w).2 !! other
  = files w !! other.
Proof.
  intros Hne.
  destruct (generate_dataset filename n_rows n_dims w) as [res w'] eqn:Hrun.
  apply generate_dataset_any in Hrun as [Hframe _]. now apply Hframe.
Qed.

Lemma other_files_untouched_witness :
  files (generate_dataset "t1.csv" 3 2 stocked_world).2 !! "keep.csv"
  = files stocked_world !! "keep.csv".
Proof.
  apply (other_files_untouched "t1.csv" "keep.csv" 3 2 stocked_world).
  discriminate.
Defined.

(** X2. The confirmation line is printed exactly when the call ends
    normally: a call that raises prints nothing. *)
Theorem confirmation_iff_success (filename : string) (n_rows n_dims : Z)
    (w : world) :
  stdout (generate_dataset filename n_rows n_dims w).2
  = match (generate_dataset filename n_rows n_dims w).1 with
    | Ok _ => stdout w ++ [confirmation filename n_rows n_dims]
    | Raise _ => stdout w
    end.
Proof.
  destruct (generate_dataset filename n_rows n_dims w) as [res w'] eqn:Hrun.
  apply generate_dataset_any in Hrun as [_ Hcases]. simpl.
  destruct Hcases as [(-> & _ & Hout) | (k & _ & _ & Hok & Herr)];
    [exact Hout |].
  destruct res as [[] | e]; [now apply Hok | now apply (Herr e)].
Qed.

(** *** Degenerate arguments *)

Lemma sample_rows_no_column ent start rows :
  row_line <$> sample_rows ent start 0 rows = replicate rows EmptyString.
Proof.
  revert start. induction rows as [|r IH]; intros start; [reflexivity |].
  simpl. now rewrite IH.
Qed.

(** X5. With a dimension count of zero nothing is drawn and nothing is
    rejected: the file is [n_rows + 1] blank lines (the header included), each
    of which reads back as a row with no field. *)
Theorem zero_dims_blank_lines (filename : string) (n_rows : Z) (w : world) :
  fault_free w ->
  exists w',
    generate_dataset filename n_rows 0 w = (Ok tt, w')
    /\ files w' !! filename
       = Some (terminated CRLF (replicate (S (Z.to_nat n_rows)) EmptyString))
    /\ splitlines (terminated CRLF (replicate (S (Z.to_nat n_rows)) EmptyString))
       = replicate (S (Z.to_nat n_rows)) EmptyString
    /\ csv_fields EmptyString = []
    /\ drawn w' = drawn w.
Proof.
  intros Hff.
  destruct (generated_file filename n_rows 0 w Hff) as (Hrun & Hfile & Hread);
    [lia |].
  assert (Hlines : dataset_lines (entropy w) (drawn w) n_rows 0
                   = replicate (S (Z.to_nat n_rows)) EmptyString).
  { unfold dataset_lines, data_lines.
    change (Z.to_nat 0) with O.
    change (fun row => comma_line (str_of_Z <$> row)) with row_line.
    now rewrite sample_rows_no_column. }
  rewrite Hlines in Hfile, Hread.
  exists (after_generate filename n_rows 0 w).
  repeat split; try assumption. simpl. lia.
Qed.

Lemma zero_dims_blank_lines_witness :
  exists w',
    generate_dataset "e.csv" 2 0 (demo_world Posix) = (Ok tt, w')
    /\ files w' !! "e.csv"
       = Some (terminated CRLF (replicate (S (Z.to_nat 2)) EmptyString))
    /\ splitlines (terminated CRLF (replicate (S (Z.to_nat 2)) EmptyString))
       = replicate (S (Z.to_nat 2)) EmptyString
    /\ csv_fields EmptyString = []
    /\ drawn w' = drawn (demo_world Posix).
Proof.
  apply (zero_dims_blank_lines "e.csv" 2 (demo_world Posix)).
  intros k. reflexivity.
Defined.

(** X6. A row count that is zero or negative is taken as no row at all, for
    any dimension count, negative ones included: nothing is drawn, the call
    ends normally, the file holds the header line alone, and the
    confirmation reports the row count as it was given. *)
Theorem nonpositive_rows_header_only (filename : string) (n_rows n_dims : Z)
    (w : world) :
  fault_free w -> n_rows <= 0 ->
  exists w',
    generate_dataset filename n_rows n_dims w = (Ok tt, w')
    /\ files w' !! filename = Some (comma_line (column_names n_dims) +:+ CRLF)
    /\ drawn w' = drawn w
    /\ stdout w' = stdout w ++ [confirmation filename n_rows n_dims]
    /\ (n_dims <= 0 -> files w' !! filename = Some CRLF).
Proof.
  intros Hff Hr.
  destruct (generated_file filename n_rows n_dims w Hff)
    as (Hrun & Hfile & _); [lia |].
  assert (Hlines :
    terminated CRLF (dataset_lines (entropy w) (drawn w) n_rows n_dims)
    = comma_line (column_names n_dims) +:+ CRLF).
  { unfold dataset_lines, data_lines.
    replace (Z.to_nat n_rows) with O by lia.
    simpl. now rewrite str_app_nil_r. }
  rewrite Hlines in Hfile.
  exists (after_generate filename n_rows n_dims w).
  split; [exact Hrun |]. split; [exact Hfile |].
  split; [simpl; lia |]. split; [reflexivity |].
  intros Hd. rewrite Hfile. unfold column_names.
  now rewrite range_nonpos.
Qed.

Lemma nonpositive_rows_header_only_witness :
  exists w',
    generate_dataset "n.csv" (-3) (-4) (demo_world Posix) = (Ok tt, w')
    /\ files w' !! "n.csv" = Some (comma_line (column_names (-4)) +:+ CRLF)
    /\ drawn w' = drawn (demo_world Posix)
    /\ stdout w' = stdout (demo_world Posix) ++ [confirmation "n.csv" (-3) (-4)]
    /\ (-4 <= 0 -> files w' !! "n.csv" = Some CRLF).
Proof.
  apply (nonpositive_rows_header_only "n.csv" (-3) (-4) (demo_world Posix));
    [intros k; reflexivity | discriminate].
Defined.

(** *** Quotes *)

Lemma needs_quote_no_dquote (s : string) :
  csv_needs_quote s = false -> occurs DQUOTE s = false.
Proof.
  induction s as [|c s IH]; simpl; [easy |].
  unfold csv_special. intros H.
  repeat (apply orb_false_elim in H; destruct H as [H ?]).
  apply orb_false_intro; [assumption | now apply IH].
Qed.

Lemma comma_line_no_dquote (fields : list string) :
  Forall plain fields -> occurs DQUOTE (comma_line fields) = false.
Proof.
  induction 1 as [|f fs [_ Hf] _ IH]; [reflexivity |].
  apply needs_quote_no_dquote in Hf.
  destruct fs as [|g fs]; [exact Hf |].
  change (comma_line (f :: g :: fs))
    with (f +:+ String COMMA (comma_line (g :: fs))).
  rewrite occurs_app, Hf. simpl. exact IH.
Qed.

Lemma terminated_no_dquote (rows : list string) :
  Forall (fun l => occurs DQUOTE l = false) rows ->
  occurs DQUOTE (terminated CRLF rows) = false.
Proof.
  induction 1 as [|l rows Hl _ IH]; [reflexivity |].
  simpl terminated. rewrite !occurs_app, Hl, IH. reflexivity.
Qed.

(** X7. The writer never has to quote: a file written by a call that ends
    normally holds no double quote, so every comma in it separates two
    fields. *)
Theorem no_quote_written (filename : string) (n_rows n_dims : Z) (w : world)
    (content : string) :
  (generate_dataset filename n_rows n_dims w).1 = Ok tt ->
  files (generate_dataset filename n_rows n_dims w).2 !! filename = Some content ->
  occurs DQUOTE content = false.
Proof.
  destruct (generate_dataset filename n_rows n_dims w) as [res w'] eqn:Hrun.
  apply generate_dataset_any in Hrun as [_ Hcases]. simpl. intros -> Hfile.
  destruct Hcases as [([=] & _) | (k & _ & Hfile' & _)].
  rewrite Hfile' in Hfile. injection Hfile as <-.
  apply terminated_no_dquote, Forall_take.
  constructor.
  - apply comma_line_no_dquote, column_names_plain.
  - unfold data_lines. apply Forall_fmap, Forall_true.
    intros row. apply comma_line_no_dquote, numerals_plain.
Qed.

Lemma no_quote_written_witness :
  occurs DQUOTE ("dimension_1,dimension_2" +:+ CRLF +:+ "0,37" +:+ CRLF
                 +:+ "74,10" +:+ CRLF +:+ "47,84" +:+ CRLF) = false.
Proof.
  apply (no_quote_written "t1.csv" 3 2 (demo_world Posix));
    vm_compute; reflexivity.
Defined.

(** *** Reading a dataset back *)

Lemma read_row_line (row : list Z) : read_row (row_line row) = Some row.
Proof.
  unfold read_row, row_line. rewrite data_line_fields.
  induction row as [|z row IH]; [reflexivity |].
  rewrite fmap_cons. simpl. rewrite int_of_str_of_Z. simpl.
  rewrite IH. reflexivity.
Qed.

Lemma read_rows_lines (rows : list (list Z)) :
  mapM read_row (row_line <$> rows) = Some rows.
Proof.
  induction rows as [|row rows IH]; [reflexivity |].
  rewrite fmap_cons. simpl. rewrite read_row_line. simpl.
  rewrite IH. reflexivity.
Qed.

(** X8. Round trip.  On a machine without I/O faults, reading the file back
    (lines, comma-separated fields, [int] of every cell) gives the column
    names and exactly the matrix of samples that was drawn, row by row. *)
Theorem read_back_dataset (filename : string) (n_rows n_dims : Z) (w : world) :
  fault_free w -> 0 <= n_dims ->
  exists w' content,
    generate_dataset filename n_rows n_dims w = (Ok tt, w')
    /\ files w' !! filename = Some content
    /\ read_dataset content
       = Some (column_names n_dims,
               sample_rows (entropy w) (drawn w)
                 (Z.to_nat n_dims) (Z.to_nat n_rows)).
Proof.
  intros Hff Hd.
  destruct (generated_file filename n_rows n_dims w Hff) as (Hrun & Hfile & Hread);
    [lia |].
  exists (after_generate filename n_rows n_dims w). eexists.
  split; [exact Hrun |]. split; [exact Hfile |].
  unfold read_dataset. rewrite Hread. unfold dataset_lines, data_lines.
  change (fun row => comma_line (str_of_Z <$> row)) with row_line.
  now rewrite read_rows_lines, header_fields.
Qed.

Lemma read_back_dataset_witness :
  exists w' content,
    generate_dataset "t1.csv" 3 2 (demo_world Posix) = (Ok tt, w')
    /\ files w' !! "t1.csv" = Some content
    /\ read_dataset content
       = Some (column_names 2,
               sample_rows (entropy (demo_world Posix)) (drawn (demo_world Posix))
                 (Z.to_nat 2) (Z.to_nat 3)).
Proof.
  apply (read_back_dataset "t1.csv" 3 2 (demo_world Posix));
    [intros k; reflexivity | discriminate].
Defined.

(** ** Further properties of the driver *)

(** *** File names *)

Lemma str_app_inv_head (a b c : string) : a +:+ b = a +:+ c -> b = c.
Proof.
  induction a as [|x a IH]; [easy |].
  rewrite !str_app_cons. intros [= H]. now apply IH.
Qed.

Lemma digits_numeral (d : Decimal.uint) (c : ascii) :
  occurs c (NilEmpty.string_of_uint d) = true -> occurs c numeral_chars = true.
Proof.
  induction d; simpl; try discriminate;
    intros H; apply orb_true_iff in H as [H | H]; try (now apply IHd);
    apply bool_decide_eq_true in H; subst c; reflexivity.
Qed.

Lemma numeral_of_uint (d : Decimal.uint) (c : ascii) :
  occurs c (NilZero.string_of_uint d) = true -> occurs c numeral_chars = true.
Proof.
  unfold NilZero.string_of_uint. destruct d; try apply digits_numeral.
  simpl. intros H. apply orb_true_iff in H as [H | H]; [ | discriminate].
  apply bool_decide_eq_true in H. subst c. reflexivity.
Qed.

(** [str] of an integer is made of digits and the minus sign. *)
Lemma str_of_Z_numeral (z : Z) (c : ascii) :
  occurs c (str_of_Z z) = true -> occurs c numeral_chars = true.
Proof.
  unfold str_of_Z, NilZero.string_of_int.
  destruct (Z.to_int z) as [d | d]; [apply numeral_of_uint |].
  simpl. intros H. apply orb_true_iff in H as [H | H].
  - apply bool_decide_eq_true in H. subst c. reflexivity.
  - now apply numeral_of_uint in H.
Qed.

Lemma str_of_Z_lacks (z : Z) (c : ascii) :
  occurs c numeral_chars = false -> occurs c (str_of_Z z) = false.
Proof.
  intros Hc. destruct (occurs c (str_of_Z z)) eqn:E; [ | reflexivity].
  apply str_of_Z_numeral in E. congruence.
Qed.

Lemma str_of_Z_inj (a b : Z) : str_of_Z a = str_of_Z b -> a = b.
Proof.
  intros H. apply (f_equal int_of_str) in H.
  rewrite !int_of_str_of_Z in H. now injection H.
Qed.

(** Two numerals followed by the same character that is no numeral
    character, and then by anything, are the same numeral and the same
    rest. *)
Lemma numeral_prefix_inj (a b : Z) (c : ascii) (s t : string) :
  occurs c numeral_chars = false ->
  str_of_Z a +:+ String c s = str_of_Z b +:+ String c t ->
  a = b /\ s = t.
Proof.
  intros Hc H.
  assert (Ha : a = b).
  { apply (f_equal (split_on c)) in H.
    rewrite !split_on_first in H by now apply str_of_Z_lacks.
    injection H as H _. now apply str_of_Z_inj. }
  subst b. apply str_app_inv_head in H. now injection H.
Qed.

(** X9. The file name determines the combination: two combinations that
    differ in the dimension count or in the row count never share a file. *)
Theorem dataset_filename_inj (n_dims size n_dims' size' : Z) :
  dataset_filename n_dims size = dataset_filename n_dims' size' ->
  n_dims = n_dims' /\ size = size'.
Proof.
  unfold dataset_filename. intros H.
  apply str_app_inv_head in H.
  change ("D_" +:+ ?x) with (String "D" (String "_" x)) in H.
  apply numeral_prefix_inj in H as [Hd H]; [ | reflexivity].
  split; [exact Hd |].
  injection H as H.
  change (".csv") with (String "." "csv") in H.
  now apply numeral_prefix_inj in H as [Hs _].
Qed.

Lemma dataset_filename_inj_witness : 10 = 10 /\ 100 = 100.
Proof.
  apply (dataset_filename_inj 10 100 10 100). reflexivity.
Defined.

(** The driver names its files by [dataset_filename]. *)
Lemma driver_with_names (generate : string -> Z -> Z -> M unit) :
  driver_with generate
  = for_each dimensions (fun n_dims =>
      for_each sizes (fun size =>
        generate (dataset_filename n_dims size) size n_dims)).
Proof. reflexivity. Qed.

(** *** The files of a run *)

Lemma dataset_lines_width ent start n_rows n_dims :
  Forall (fun line => length (csv_fields line) = Z.to_nat n_dims)
         (dataset_lines ent start n_rows n_dims).
Proof.
  constructor.
  - now rewrite header_fields, column_names_length.
  - unfold data_lines. apply Forall_fmap, Forall_forall.
    intros row Hrow. simpl.
    apply sample_rows_elem in Hrow as (s & ->).
    now rewrite data_line_fields, length_fmap, sample_row_length.
Qed.

(** A run of calls with distinct file names on a machine without I/O faults:
    every call's file is there at the end, as that call wrote it, and no
    other file has changed. *)
Lemma calls_files (calls : list (string * Z * Z)) :
  NoDup (call_name <$> calls) ->
  Forall (fun c => 0 <= c.2) calls ->
  forall w, fault_free w ->
    exists w',
      for_each calls (call_with generate_dataset) w = (Ok tt, w')
      /\ fault_free w' /\ entropy w' = entropy w
      /\ open_files w' = open_files w
      /\ (forall c, c ∈ calls ->
            exists start,
              files w' !! call_name c
              = Some (terminated CRLF
                        (dataset_lines (entropy w) start c.1.2 c.2)))
      /\ (forall g, g ∉ call_name <$> calls -> files w' !! g = files w !! g).
Proof.
  intros Hnd Hall. induction Hall as [|[[f r] d] calls Hd _ IH]; intros w Hff.
  - exists w. repeat split; try done. intros c Hc. now apply not_elem_of_nil in Hc.
  - rewrite fmap_cons in Hnd. apply NoDup_cons in Hnd as [Hf Hnd].
    simpl in Hd, Hf. simpl for_each. unfold call_with at 1. simpl.
    rewrite (bind_ok _ _ _ (after_generate f r d w) tt)
      by (apply generate_dataset_ok; [assumption | now left]).
    destruct (IH Hnd (after_generate f r d w))
      as (w' & Hrun & Hff' & Hent & Ho & Hfiles & Hframe); [exact Hff |].
    exists w'. split; [exact Hrun |]. split; [exact Hff' |].
    split; [exact Hent |]. split; [exact Ho |]. split.
    + intros c Hc. apply elem_of_cons in Hc as [-> | Hc].
      * exists (drawn w). unfold call_name at 1. simpl.
        rewrite (Hframe f Hf). apply lookup_insert_eq.
      * destruct (Hfiles c Hc) as (start & Hfile). now exists start.
    + intros g Hg. apply not_elem_of_cons in Hg as [Hgf Hg].
      rewrite (Hframe g Hg). simpl. now apply lookup_insert_ne.
Qed.

(** The nested loops make the calls of [driver_calls], in order. *)
Lemma driver_with_calls (generate : string -> Z -> Z -> M unit) (w : world) :
  driver_with generate w = for_each driver_calls (call_with generate) w.
Proof.
  cbv.
  repeat match goal with
         | |- context [generate ?f ?r ?d ?w1] =>
             is_var w1; destruct (generate f r d w1) as [[[] | ?] ?]
         end; reflexivity.
Qed.

(** X10. On a machine without I/O faults the driver completes and leaves the
    eight files, none overwritten by a later call: each reads back as one
    header line and [size] data lines, every line with [n_dims] fields.  No
    file other than these eight has changed and no handle is left open. *)
Theorem driver_leaves_eight_files (w : world) :
  fault_free w ->
  exists w',
    driver w = (Ok tt, w')
    /\ (forall filename size n_dims,
          (filename, size, n_dims) ∈ driver_calls ->
          exists content,
            files w' !! filename = Some content
            /\ Z.of_nat (length (splitlines content)) = size + 1
            /\ Forall (fun line => Z.of_nat (length (csv_fields line)) = n_dims)
                      (splitlines content))
    /\ (forall g, g ∉ call_name <$> driver_calls -> files w' !! g = files w !! g)
    /\ open_files w' = open_files w.
Proof.
  intros Hff.
  assert (Hpos : Forall (fun c => 0 < c.1.2 /\ 0 < c.2) driver_calls)
    by (unfold driver_calls; repeat constructor).
  destruct (calls_files driver_calls) with (w := w)
    as (w' & Hrun & _ & _ & Ho & Hfiles & Hframe).
  { compute_done. }
  { eapply Forall_impl; [exact Hpos |]. intros c [_ Hd]. lia. }
  { exact Hff. }
  exists w'. split.
  { unfold driver. now rewrite driver_with_calls. }
  split; [ | split; assumption].
  intros filename size n_dims Hc.
  destruct (Hfiles _ Hc) as (start & Hfile).
  rewrite Forall_forall in Hpos. destruct (Hpos _ Hc) as [Hs Hd].
  cbn [fst snd] in Hs, Hd. unfold call_name in Hfile. cbn [fst snd] in Hfile.
  eexists. split; [exact Hfile |].
  rewrite splitlines_terminated by apply dataset_lines_one_line.
  split.
  - unfold dataset_lines. simpl length. rewrite data_lines_length. lia.
  - eapply Forall_impl; [apply dataset_lines_width |].
    intros line Hline. simpl in Hline. rewrite Hline. lia.
Qed.

Lemma driver_leaves_eight_files_witness :
  exists w',
    driver (demo_world Posix) = (Ok tt, w')
    /\ (forall filename size n_dims,
          (filename, size, n_dims) ∈ driver_calls ->
          exists content,
            files w' !! filename = Some content
            /\ Z.of_nat (length (splitlines content)) = size + 1
            /\ Forall (fun line => Z.of_nat (length (csv_fields line)) = n_dims)
                      (splitlines content))
    /\ (forall g, g ∉ call_name <$> driver_calls ->
          files w' !! g = files (demo_world Posix) !! g)
    /\ open_files w' = open_files (demo_world Posix).
Proof.
  apply (driver_leaves_eight_files (demo_world Posix)).
  intros k. reflexivity.
Defined.

(** *** A run that fails *)

Lemma for_each_app {A} (l1 l2 : list A) (body : A -> M unit) (w : world) :
  for_each (l1 ++ l2) body w
  = match for_each l1 body w with
    | (Ok _, w1) => for_each l2 body w1
    | (Raise e, w1) => (Raise e, w1)
    end.
Proof.
  revert w. induction l1 as [|x l1 IH]; intros w; [reflexivity |].
  simpl. rewrite !bind_run.
  destruct (body x w) as [[[] | e] w1]; [apply IH | reflexivity].
Qed.

(** A run of calls changes no file but those the calls name, whatever
    fails. *)
Lemma calls_frame (calls : list (string * Z * Z)) (w w' : world)
    (res : result unit) (g : string) :
  for_each calls (call_with generate_dataset) w = (res, w') ->
  g ∉ call_name <$> calls ->
  files w' !! g = files w !! g.
Proof.
  revert w. induction calls as [|[[f r] d] calls IH]; intros w Hrun Hg.
  - now injection Hrun as _ <-.
  - rewrite fmap_cons in Hg. apply not_elem_of_cons in Hg as [Hgf Hg].
    simpl for_each in Hrun. rewrite bind_run in Hrun.
    unfold call_with at 1 in Hrun. simpl in Hrun, Hgf.
    destruct (generate_dataset f r d w) as [[[] | e] w1] eqn:Hcall;
      apply generate_dataset_any in Hcall as [Hframe _].
    + rewrite (IH _ Hrun Hg). now apply Hframe.
    + injection Hrun as _ <-. now apply Hframe.
Qed.

(** X11. The driver stops at the first call that raises: the exception and
    the state it leaves are the driver's, the calls after it are not made,
    and the files they would have written are as they were before the
    driver started. *)
Theorem driver_stops_at_first_failure
    (pre post : list (string * Z * Z)) (c : string * Z * Z)
    (w w1 w2 : world) (e : exn) :
  driver_calls = pre ++ c :: post ->
  for_each pre (call_with generate_dataset) w = (Ok tt, w1) ->
  call_with generate_dataset c w1 = (Raise e, w2) ->
  driver w = (Raise e, w2)
  /\ forall c', c' ∈ post -> files w2 !! call_name c' = files w !! call_name c'.
Proof.
  intros Hsplit Hpre Hcall.
  assert (Hrun : for_each (pre ++ [c]) (call_with generate_dataset) w
                 = (Raise e, w2)).
  { rewrite for_each_app, Hpre. simpl. now rewrite bind_run, Hcall. }
  split.
  - unfold driver. rewrite driver_with_calls, Hsplit.
    change (pre ++ c :: post) with (pre ++ [c] ++ post).
    now rewrite app_assoc, for_each_app, Hrun.
  - intros c' Hc'. apply (calls_frame _ _ _ _ _ Hrun).
    assert (Hnd : NoDup (call_name <$> driver_calls)) by compute_done.
    rewrite Hsplit in Hnd.
    change (pre ++ c :: post) with (pre ++ [c] ++ post) in Hnd.
    rewrite app_assoc, fmap_app in Hnd.
    apply NoDup_app in Hnd as (_ & Hdisj & _).
    intros Hin. apply (Hdisj _ Hin). now apply list_elem_of_fmap_2.
Qed.

Lemma driver_stops_at_first_failure_witness :
  driver flaky_world
  = (Raise OSError,
     (generate_dataset "dataset_10D_100.csv" 100 10 flaky_world).2)
  /\ forall c', c' ∈ tail driver_calls ->
       files (generate_dataset "dataset_10D_100.csv" 100 10 flaky_world).2
         !! call_name c'
       = files flaky_world !! call_name c'.
Proof.
  apply (driver_stops_at_first_failure
           [] (tail driver_calls) ("dataset_10D_100.csv", 100, 10)
           flaky_world flaky_world).
  - reflexivity.
  - reflexivity.
  - vm_compute. reflexivity.
Defined.

(** When only the close fails the file is whole on disk, yet the call raises
    and prints nothing. *)
Example run_close_fails :
  generate_dataset "t.csv" 1 1 close_fails_world
  = (Raise OSError,
     World Posix {[ "t.csv" := "dimension_1" +:+ CRLF +:+ "0" +:+ CRLF ]} ∅
           (fun k => bool_decide (k = 3%nat)) 4 (fun k => 37 * Z.of_nat k) 1 []).
Proof. vm_compute. reflexivity. Qed.

(** An existing file is replaced and its neighbour kept. *)
Example run_on_stocked :
  files (generate_dataset "t1.csv" 1 1 stocked_world).2
  = {[ "keep.csv" := "1,2";
       "t1.csv" := "dimension_1" +:+ CRLF +:+ "0" +:+ CRLF ]}.
Proof. vm_compute. reflexivity. Qed.

(** ** The distribution of the cells *)

(** *** From words to cells *)

Lemma mask7_mod (word : Z) : mask7 word = word mod 128.
Proof.
  unfold mask7. change (Z.land word 127) with (Z.land word (Z.ones 7)).
  now rewrite Z.land_ones by lia.
Qed.

Lemma mask7_range (word : Z) : 0 <= mask7 word <= 127.
Proof.
  rewrite mask7_mod. pose proof (Z.mod_pos_bound word 128 eq_refl). lia.
Qed.

Lemma mask7_low (u : Z) : 0 <= u < 128 -> mask7 u = u.
Proof. intros H. rewrite mask7_mod. now apply Z.mod_small. Qed.

(** Whatever the words, the sampler yields values from 0 to 100. *)
Lemma sampler_stream_range (words : list Z) :
  Forall (fun u => 0 <= u <= 100) (sampler_stream words).
Proof.
  induction words as [|word words IH]; simpl; [constructor |].
  destruct (Z.leb_spec (mask7 word) 100) as [Hle | _]; [ | exact IH].
  constructor; [ | exact IH]. pose proof (mask7_range word). lia.
Qed.

(** The sampler reads nothing of a word but its low seven bits. *)
Lemma sampler_stream_low_bits (words : list Z) :
  sampler_stream (mask7 <$> words) = sampler_stream words.
Proof.
  induction words as [|word words IH]; [reflexivity |].
  rewrite fmap_cons. simpl.
  rewrite (mask7_low (mask7 word))
    by (pose proof (mask7_range word); lia).
  now rewrite IH.
Qed.

(** Each value of the low seven bits is that of exactly [2^25] of the
    [2^32] words. *)
Lemma words_with_low_bits (u word : Z) :
  0 <= u < 128 ->
  (0 <= word < 2 ^ 32 /\ mask7 word = u)
  <-> exists q, 0 <= q < 2 ^ 25 /\ word = 128 * q + u.
Proof.
  intros Hu. rewrite mask7_mod.
  split.
  - intros [Hw Hm]. exists (word / 128).
    pose proof (Z.div_mod word 128 ltac:(lia)) as Hdm.
    split; [ | lia].
    split; [apply Z.div_pos; lia |].
    apply Z.div_lt_upper_bound; lia.
  - intros (q & Hq & ->). split; [lia |].
    rewrite Z.mul_comm, Z.add_comm, Z.mod_add by lia.
    apply Z.mod_small. lia.
Qed.

Lemma fmap_seq_shift {A} (f : nat -> A) (a n : nat) :
  f <$> seq a n = (fun k => f (a + k)%nat) <$> seq 0 n.
Proof.
  rewrite <- (Nat.add_0_r a) at 1.
  now rewrite <- fmap_add_seq, <- list_fmap_compose.
Qed.

(** The samples of the rows, one after the other, are consecutive samples of
    the generator. *)
Lemma concat_sample_rows ent start n rows :
  concat (sample_rows ent start n rows)
  = (fun k => bounded 0 101 (ent (start + k)%nat)) <$> seq 0 (rows * n).
Proof.
  revert start. induction rows as [|r IH]; intros start; [reflexivity |].
  simpl. rewrite IH, seq_app, fmap_app. f_equal.
  rewrite (fmap_seq_shift _ (0 + n)). apply list_fmap_ext.
  intros _ k _. simpl. do 2 f_equal. lia.
Qed.

Lemma samples_yielded (samples : list Z) (m : nat) :
  (m <= length samples)%nat ->
  Forall (fun u => 0 <= u <= 100) samples ->
  (fun k => bounded 0 101 (nth k samples 0)) <$> seq 0 m = take m samples.
Proof.
  revert samples. induction m as [|m IH]; intros samples Hm Hall;
    [reflexivity |].
  destruct samples as [|u samples]; [simpl in Hm; lia |].
  inversion Hall as [|? ? Hu Hall']; subst.
  simpl. rewrite bounded_reaches by assumption. f_equal.
  rewrite (fmap_seq_shift _ 1). simpl.
  apply IH; [simpl in Hm; lia | assumption].
Qed.

Lemma read_dataset_lines ent start n_rows n_dims :
  read_dataset (terminated CRLF (dataset_lines ent start n_rows n_dims))
  = Some (column_names n_dims,
          sample_rows ent start (Z.to_nat n_dims) (Z.to_nat n_rows)).
Proof.
  unfold read_dataset.
  rewrite splitlines_terminated by apply dataset_lines_one_line.
  unfold dataset_lines, data_lines.
  change (fun row => comma_line (str_of_Z <$> row)) with row_line.
  now rewrite read_rows_lines, header_fields.
Qed.

(** The cells of the file are the first samples the generator yields, as many
    as there are cells, in the order they are yielded. *)
Lemma cells_are_samples (filename : string) (n_rows n_dims : Z) (w : world)
    (samples : list Z) :
  fault_free w -> 0 <= n_dims ->
  (cell_count n_rows n_dims <= length samples)%nat ->
  Forall (fun u => 0 <= u <= 100) samples ->
  written_cells filename
    (generate_dataset filename n_rows n_dims (with_samples samples w)).2
  = Some (take (cell_count n_rows n_dims) samples).
Proof.
  intros Hff Hd Hlen Hall.
  assert (Hff' : fault_free (with_samples samples w)) by exact Hff.
  destruct (generated_file filename n_rows n_dims _ Hff')
    as (Hrun & Hfile & _); [lia |].
  rewrite Hrun. cbn [snd]. unfold written_cells. rewrite Hfile.
  cbn [mbind option_bind]. rewrite read_dataset_lines.
  f_equal. rewrite concat_sample_rows.
  rewrite <- (samples_yielded samples (cell_count n_rows n_dims) Hlen Hall).
  apply list_fmap_ext. intros _ k _. cbn [entropy drawn with_samples].
  replace (drawn w + k <? drawn w)%nat with false
    by (symmetry; apply Nat.ltb_ge; lia).
  do 2 f_equal. lia.
Qed.

(** *** Counting runs of words *)

Lemma count_app {A} (P : A -> bool) (l1 l2 : list A) :
  count P (l1 ++ l2) = (count P l1 + count P l2)%nat.
Proof. unfold count. now rewrite List.filter_app, length_app. Qed.

Lemma count_ext {A} (P P' : A -> bool) (l : list A) :
  (forall x, P x = P' x) -> count P l = count P' l.
Proof.
  intros H. unfold count. f_equal. apply List.filter_ext. exact H.
Qed.

Lemma count_true {A} (l : list A) : count (fun _ => true) l = length l.
Proof. induction l as [|x l IH]; [reflexivity |]. unfold count in *. simpl. now rewrite IH. Qed.

Lemma count_false {A} (l : list A) : count (fun _ => false) l = O.
Proof. induction l as [|x l IH]; [reflexivity |]. exact IH. Qed.

Lemma count_map_cons {A} (P : list A -> bool) (x : A) (ts : list (list A)) :
  count P (map (cons x) ts) = count (fun t => P (x :: t)) ts.
Proof.
  induction ts as [|t ts IH]; [reflexivity |].
  unfold count in *. simpl. destruct (P (x :: t)); simpl; now rewrite IH.
Qed.

Lemma count_flat_map {A B} (P : B -> bool) (f : A -> list B) (l : list A) :
  count P (flat_map f l) = sum_list_with (fun x => count P (f x)) l.
Proof.
  induction l as [|x l IH]; [reflexivity |].
  simpl. now rewrite count_app, IH.
Qed.

Lemma sum_list_with_ext_in {A} (f g : A -> nat) (l : list A) :
  Forall (fun x => f x = g x) l -> sum_list_with f l = sum_list_with g l.
Proof. induction 1 as [|x l Hx _ IH]; [reflexivity |]. simpl. now rewrite Hx, IH. Qed.

Lemma sum_list_with_const {A} (c : nat) (l : list A) :
  sum_list_with (fun _ => c) l = (length l * c)%nat.
Proof. induction l as [|x l IH]; [reflexivity |]. simpl. now rewrite IH. Qed.

Lemma sum_list_with_scaled {A} (P : A -> bool) (c : nat) (l : list A) :
  sum_list_with (fun x => if P x then c else O) l = (count P l * c)%nat.
Proof.
  induction l as [|x l IH]; [reflexivity |].
  unfold count in *. simpl. rewrite IH. destruct (P x); simpl; lia.
Qed.

Lemma word_runs_S (N : nat) :
  word_runs (S N) = flat_map (fun u => map (cons u) (word_runs N)) low_bits.
Proof. reflexivity. Qed.

Lemma word_runs_length (N : nat) : length (word_runs N) = (128 ^ N)%nat.
Proof.
  induction N as [|N IH]; [reflexivity |].
  rewrite <- (count_true (word_runs (S N))), word_runs_S.
  rewrite count_flat_map.
  rewrite (sum_list_with_ext_in _ (fun _ => (128 ^ N)%nat)).
  - rewrite sum_list_with_const. change (length low_bits) with 128%nat.
    rewrite Nat.pow_succ_r'. reflexivity.
  - apply Forall_true. intros u.
    now rewrite count_map_cons, count_true, IH.
Qed.

(** The low bits split into the values the sampler keeps and the 27 it
    rejects. *)
Lemma low_bits_split :
  low_bits = range 101 ++ (Z.of_nat <$> seq 101 27).
Proof. reflexivity. Qed.

Lemma kept_values :
  Forall (fun u => mask7 u = u /\ (u <=? 100) = true) (range 101).
Proof.
  apply Forall_forall. intros u Hu. unfold range in Hu.
  apply list_elem_of_fmap in Hu as (k & -> & Hk).
  apply elem_of_seq in Hk. split; [apply mask7_low; lia | apply Z.leb_le; lia].
Qed.

Lemma rejected_values :
  Forall (fun u => mask7 u = u /\ (u <=? 100) = false)
         (Z.of_nat <$> seq 101 27).
Proof.
  apply Forall_forall. intros u Hu.
  apply list_elem_of_fmap in Hu as (k & -> & Hk).
  apply elem_of_seq in Hk. split; [apply mask7_low; lia | apply Z.leb_gt; lia].
Qed.

Lemma fixed_count_zero (N : nat) : fixed_count N 0 = (128 ^ N)%nat.
Proof.
  induction N as [|N IH]; [reflexivity |].
  simpl fixed_count. rewrite IH, Nat.pow_succ_r'. reflexivity.
Qed.

Lemma fixed_count_pos (N m : nat) : (m <= N)%nat -> (0 < fixed_count N m)%nat.
Proof.
  revert m. induction N as [|N IH]; intros m Hm.
  - replace m with O by lia. simpl. lia.
  - destruct m as [|m].
    + rewrite fixed_count_zero. apply Nat.neq_0_lt_0, Nat.pow_nonzero. lia.
    + simpl fixed_count. specialize (IH m ltac:(lia)). lia.
Qed.

(** The runs of [N] words on which the first samples fall in given events
    number the product of the events' sizes times the runs that give one
    fixed outcome. *)
Lemma count_hits (events : list (Z -> bool)) (N : nat) :
  count (fun words => hits words events) (word_runs N)
  = (prod_counts events * fixed_count N (length events))%nat.
Proof.
  revert events. induction N as [|N IH]; intros events.
  - destruct events as [|A events]; [reflexivity |].
    cbn [length fixed_count]. now rewrite Nat.mul_0_r.
  - destruct events as [|A events].
    + rewrite (count_ext _ (fun _ => true)) by (intros [|? ?]; reflexivity).
      rewrite count_true, word_runs_length. simpl prod_counts.
      simpl length. rewrite fixed_count_zero. lia.
    + rewrite word_runs_S, count_flat_map, low_bits_split.
      rewrite sum_list_with_app.
      rewrite (sum_list_with_ext_in _
                 (fun u => if A u
                           then (prod_counts events
                                 * fixed_count N (length events))%nat
                           else O) (range 101)).
      2: { eapply Forall_impl; [apply kept_values |].
           intros u [Hm Hle]. rewrite count_map_cons.
           rewrite (count_ext _ (fun t => A u && hits t events))
             by (intros t; simpl; now rewrite Hm, Hle).
           destruct (A u).
           - rewrite <- IH. now apply count_ext.
           - rewrite (count_ext _ (fun _ => false)) by reflexivity.
             apply count_false. }
      rewrite (sum_list_with_ext_in _
                 (fun _ => (prod_counts (A :: events)
                            * fixed_count N (length (A :: events)))%nat)
                 (Z.of_nat <$> seq 101 27)).
      2: { eapply Forall_impl; [apply rejected_values |].
           intros u [Hm Hle]. rewrite count_map_cons. rewrite <- IH.
           apply count_ext. intros t. simpl. now rewrite Hm, Hle. }
      rewrite sum_list_with_scaled, sum_list_with_const.
      change (length (Z.of_nat <$> seq 101 27)) with 27%nat.
      simpl prod_counts. simpl length. simpl fixed_count. lia.
Qed.

(** *** The event of a run, told on the words *)

Lemma stream_event_hits (words : list Z) (events : list (Z -> bool)) :
  (length events <=? length (sampler_stream words))%nat
  && all_in events (take (length events) (sampler_stream words))
  = hits words events.
Proof.
  revert events. induction words as [|word words IH]; intros events.
  - destruct events; reflexivity.
  - destruct events as [|A events]; [reflexivity |].
    simpl sampler_stream. simpl hits.
    destruct (mask7 word <=? 100).
    + rewrite <- IH. simpl.
      destruct (A (mask7 word)); [reflexivity |].
      now rewrite andb_false_r.
    + apply IH.
Qed.

Lemma run_event_hits (filename : string) (n_rows n_dims : Z) (w : world)
    (events : list (Z -> bool)) (words : list Z) :
  fault_free w -> 0 <= n_dims ->
  length events = cell_count n_rows n_dims ->
  run_event filename n_rows n_dims w events words = hits words events.
Proof.
  intros Hff Hd Hlen. unfold run_event. rewrite <- stream_event_hits.
  destruct (length events <=? length (sampler_stream words))%nat eqn:Hfit;
    [ | reflexivity].
  apply Nat.leb_le in Hfit. unfold with_words.
  rewrite cells_are_samples;
    [ | assumption | assumption | lia | apply sampler_stream_range].
  now rewrite Hlen.
Qed.

Lemma count_run_event (filename : string) (n_rows n_dims : Z) (w : world)
    (events : list (Z -> bool)) (N : nat) :
  fault_free w -> 0 <= n_dims ->
  length events = cell_count n_rows n_dims ->
  count (run_event filename n_rows n_dims w events) (word_runs N)
  = (prod_counts events * fixed_count N (cell_count n_rows n_dims))%nat.
Proof.
  intros Hff Hd Hlen.
  rewrite (count_ext _ (fun words => hits words events))
    by (intros words; now apply run_event_hits).
  now rewrite count_hits, Hlen.
Qed.

Lemma count_anything : count anything (range 101) = 101%nat.
Proof. unfold anything. now rewrite count_true, range_length. Qed.

Lemma prod_counts_cons (A : Z -> bool) (events : list (Z -> bool)) :
  prod_counts (A :: events)
  = (count A (range 101) * prod_counts events)%nat.
Proof. reflexivity. Qed.

Lemma prod_counts_anything (m : nat) :
  prod_counts (replicate m anything) = (101 ^ m)%nat.
Proof.
  induction m as [|m IH]; [reflexivity |].
  change (replicate (S m) anything) with (anything :: replicate m anything).
  now rewrite prod_counts_cons, IH, count_anything, Nat.pow_succ_r'.
Qed.

(** Constraining one cell out of [m] leaves the other [m - 1] free. *)
Lemma prod_counts_only (m k : nat) (A : Z -> bool) :
  (k < S m)%nat ->
  prod_counts (only (S m) k A) = (101 ^ m * count A (range 101))%nat.
Proof.
  unfold only. revert k. induction m as [|m IH]; intros k Hk.
  - replace k with O by lia.
    change (<[O := A]> (replicate 1 anything)) with [A].
    rewrite prod_counts_cons. change (prod_counts []) with 1%nat.
    change (101 ^ 0)%nat with 1%nat. lia.
  - destruct k as [|k].
    + change (<[O := A]> (replicate (S (S m)) anything))
        with (A :: replicate (S m) anything).
      rewrite prod_counts_cons, prod_counts_anything. lia.
    + change (<[S k := A]> (replicate (S (S m)) anything))
        with (anything :: <[k := A]> (replicate (S m) anything)).
      rewrite prod_counts_cons, IH, count_anything, (Nat.pow_succ_r' 101 m)
        by lia.
      lia.
Qed.

Lemma count_eqb_absent (v : Z) (l : list Z) :
  v ∉ l -> count (Z.eqb v) l = O.
Proof.
  induction l as [|x l IH]; intros Hv; [reflexivity |].
  apply not_elem_of_cons in Hv as [Hne Hv].
  unfold count in *. simpl.
  destruct (Z.eqb_spec v x); [congruence | now apply IH].
Qed.

Lemma count_eqb (v : Z) (l : list Z) :
  NoDup l -> v ∈ l -> count (Z.eqb v) l = 1%nat.
Proof.
  induction 1 as [|x l Hx Hnd IH]; intros Hv.
  - now apply not_elem_of_nil in Hv.
  - unfold count in *. simpl. destruct (Z.eqb_spec v x) as [-> | Hne].
    + simpl. f_equal. now apply count_eqb_absent.
    + apply IH. apply elem_of_cons in Hv as [-> | Hv]; [congruence | exact Hv].
Qed.

(** Each value from 0 to 100 is one of the 101 the sampler keeps. *)
Lemma count_value (v : Z) : 0 <= v <= 100 -> count (Z.eqb v) (range 101) = 1%nat.
Proof.
  intros Hv. apply count_eqb.
  - unfold range. apply (NoDup_fmap_2 _), NoDup_seq.
  - unfold range. apply list_elem_of_fmap. exists (Z.to_nat v).
    split; [lia |]. apply elem_of_seq. lia.
Qed.

(** *** Probabilities *)

Lemma inject_nat_nonzero (n : nat) :
  (0 < n)%nat -> ~ (inject_Z (Z.of_nat n) == 0)%Q.
Proof.
  intros Hn Heq. unfold Qeq in Heq. simpl in Heq. lia.
Qed.

Lemma pow101_pos (m : nat) : (0 < 101 ^ m)%nat.
Proof. apply Nat.neq_0_lt_0, Nat.pow_nonzero. lia. Qed.

(** Closes the side conditions of [field]: the denominators are not zero. *)
Ltac nonzero :=
  repeat split;
  first [ apply inject_nat_nonzero; first [apply pow101_pos | lia]
        | apply (inject_nat_nonzero 101); lia ].

(** The probability of a family of events on the cells: the product of the
    events' sizes over [101 ^ m]. *)
Lemma Pr_value (filename : string) (n_rows n_dims : Z) (w : world) (N : nat)
    (events : list (Z -> bool)) :
  fault_free w -> 0 <= n_dims ->
  (cell_count n_rows n_dims <= N)%nat ->
  length events = cell_count n_rows n_dims ->
  (Pr filename n_rows n_dims w N events
   == inject_Z (Z.of_nat (prod_counts events))
      / inject_Z (Z.of_nat (101 ^ cell_count n_rows n_dims)))%Q.
Proof.
  intros Hff Hd HN Hlen. unfold Pr.
  rewrite (count_run_event _ _ _ _ events) by assumption.
  rewrite (count_run_event _ _ _ _ (replicate _ anything))
    by (assumption || apply length_replicate).
  rewrite prod_counts_anything, !Nat2Z.inj_mul, !inject_Z_mult.
  field. split; apply inject_nat_nonzero;
    [apply pow101_pos | now apply fixed_count_pos].
Qed.

Lemma Pr_only (filename : string) (n_rows n_dims : Z) (w : world) (N k : nat)
    (A : Z -> bool) :
  fault_free w -> 0 <= n_dims ->
  (cell_count n_rows n_dims <= N)%nat ->
  (k < cell_count n_rows n_dims)%nat ->
  (Pr filename n_rows n_dims w N (only (cell_count n_rows n_dims) k A)
   == inject_Z (Z.of_nat (count A (range 101))) / inject_Z 101)%Q.
Proof.
  intros Hff Hd HN Hk.
  rewrite Pr_value; try assumption;
    [ | unfold only; now rewrite length_insert, length_replicate].
  destruct (cell_count n_rows n_dims) as [|m]; [lia |].
  rewrite prod_counts_only by assumption.
  rewrite Nat.pow_succ_r', !Nat2Z.inj_mul, !inject_Z_mult.
  change (inject_Z (Z.of_nat 101)) with (inject_Z 101).
  field. nonzero.
Qed.

Lemma Qprod_cons (a : Q) (l : list Q) : Qprod (a :: l) = (a * Qprod l)%Q.
Proof. reflexivity. Qed.

Lemma Qprod_ext (l1 l2 : list Q) :
  Forall2 Qeq l1 l2 -> (Qprod l1 == Qprod l2)%Q.
Proof.
  induction 1 as [|a b l1 l2 Hab _ IH]; [reflexivity |].
  now rewrite !Qprod_cons, Hab, IH.
Qed.

Lemma Qprod_counts (events : list (Z -> bool)) :
  (Qprod ((fun A => inject_Z (Z.of_nat (count A (range 101))) / inject_Z 101)
            <$> events)
   == inject_Z (Z.of_nat (prod_counts events))
      / inject_Z (Z.of_nat (101 ^ length events)))%Q.
Proof.
  induction events as [|A events IH]; [reflexivity |].
  rewrite fmap_cons, Qprod_cons, IH, prod_counts_cons.
  simpl length. rewrite Nat.pow_succ_r', !Nat2Z.inj_mul, !inject_Z_mult.
  change (inject_Z (Z.of_nat 101)) with (inject_Z 101).
  field. nonzero.
Qed.

(** C3. Every cell the call writes reads back as an integer from 0 to 100,
    whatever the arguments and whatever the generator yields.  And the cells
    are uniform and independent: the words of the Mersenne Twister being
    uniform and independent, so that every run of their low bits is equally
    likely (each value of the low seven bits is that of exactly [2^25] of the
    [2^32] words), the cells of the file are the first samples numpy's
    sampler keeps, in order, and over the runs of any number [N] of words that
    suffice for the call
    - each cell takes each value from 0 to 100 with probability 1/101;
    - for every family of events, one per cell, the probability that every
      cell lies in its event is the product of the probabilities that each
      cell alone lies in its event. *)
Theorem C3_cells_uniform (filename : string) (n_rows n_dims : Z) (w : world) :
  fault_free w ->
  (exists content,
     files (generate_dataset filename n_rows n_dims w).2 !! filename
     = Some content
     /\ forall line field,
          line ∈ tail (splitlines content) -> field ∈ csv_fields line ->
          exists z, int_of_str field = Some z /\ 0 <= z <= 100)
  /\ (0 <= n_dims ->
      (forall words,
         (cell_count n_rows n_dims <= length (sampler_stream words))%nat ->
         written_cells filename
           (generate_dataset filename n_rows n_dims (with_words words w)).2
         = Some (take (cell_count n_rows n_dims) (sampler_stream words)))
      /\ forall N, (cell_count n_rows n_dims <= N)%nat ->
           (forall k v,
              (k < cell_count n_rows n_dims)%nat -> 0 <= v <= 100 ->
              (Pr filename n_rows n_dims w N
                  (only (cell_count n_rows n_dims) k (Z.eqb v))
               == 1 # 101)%Q)
           /\ (forall events,
                 length events = cell_count n_rows n_dims ->
                 (Pr filename n_rows n_dims w N events
                  == Qprod (imap (fun k A =>
                              Pr filename n_rows n_dims w N
                                 (only (cell_count n_rows n_dims) k A))
                            events))%Q))
  /\ (forall u word,
        0 <= u < 128 ->
        (0 <= word < 2 ^ 32 /\ mask7 word = u)
        <-> exists q, 0 <= q < 2 ^ 25 /\ word = 128 * q + u).
Proof.
  intros Hff. split; [ | split].
  - (* the range *)
    assert (Hcells : forall ent start line field,
      line ∈ data_lines ent start n_rows n_dims -> field ∈ csv_fields line ->
      exists z, int_of_str field = Some z /\ 0 <= z <= 100).
    { intros ent start line field Hline Hfield.
      destruct (data_lines_cells _ _ _ _ _ _ Hline Hfield) as (raw & ->).
      exists (bounded 0 101 raw).
      split; [apply int_of_str_of_Z | apply bounded_range]. }
    destruct (Z.le_gt_cases 0 n_dims) as [Hd | Hd];
      [ | destruct (Z.le_gt_cases n_rows 0) as [Hr | Hr] ].
    3: { rewrite generate_dataset_negative_dims by (assumption || lia).
         exists CRLF. split; [apply lookup_insert_eq |].
         intros line field Hline. simpl in Hline.
         now apply not_elem_of_nil in Hline. }
    all: destruct (generated_file filename n_rows n_dims w Hff)
           as (Hrun & Hfile & Hread); [lia | ].
    all: rewrite Hrun; eexists; split; [exact Hfile |]; rewrite Hread.
    all: intros line field Hline; simpl in Hline;
      now apply (Hcells (entropy w) (drawn w)).
  - (* the distribution *)
    intros Hd. split.
    { intros words Hfit. unfold with_words.
      apply cells_are_samples; try assumption. apply sampler_stream_range. }
    intros N HN. split.
    + intros k v Hk Hv. rewrite Pr_only by assumption.
      now rewrite count_value.
    + intros events Hlen. rewrite Pr_value by assumption.
      rewrite <- Hlen, <- Qprod_counts. apply Qprod_ext.
      apply Forall2_same_length_lookup_2.
      { now rewrite length_imap, length_fmap. }
      intros i x y Hx Hy.
      rewrite list_lookup_fmap in Hx. rewrite list_lookup_imap in Hy.
      destruct (events !! i) as [A |] eqn:HA; [ | discriminate].
      simpl in Hx, Hy. injection Hx as <-. injection Hy as <-.
      rewrite Hlen. symmetry. apply Pr_only; try assumption.
      rewrite <- Hlen. now apply lookup_lt_Some in HA.
  - intros u word. apply words_with_low_bits.
Qed.

Lemma C3_cells_uniform_witness :
  (exists content,
     files (generate_dataset "t1.csv" 3 2 (demo_world Posix)).2 !! "t1.csv"
     = Some content
     /\ forall line field,
          line ∈ tail (splitlines content) -> field ∈ csv_fields line ->
          exists z, int_of_str field = Some z /\ 0 <= z <= 100)
  /\ (0 <= 2 ->
      (forall words,
         (cell_count 3 2 <= length (sampler_stream words))%nat ->
         written_cells "t1.csv"
           (generate_dataset "t1.csv" 3 2 (with_words words (demo_world Posix))).2
         = Some (take (cell_count 3 2) (sampler_stream words)))
      /\ forall N, (cell_count 3 2 <= N)%nat ->
           (forall k v,
              (k < cell_count 3 2)%nat -> 0 <= v <= 100 ->
              (Pr "t1.csv" 3 2 (demo_world Posix) N
                  (only (cell_count 3 2) k (Z.eqb v))
               == 1 # 101)%Q)
           /\ (forall events,
                 length events = cell_count 3 2 ->
                 (Pr "t1.csv" 3 2 (demo_world Posix) N events
                  == Qprod (imap (fun k A =>
                              Pr "t1.csv" 3 2 (demo_world Posix) N
                                 (only (cell_count 3 2) k A))
                            events))%Q))
  /\ (forall u word,
        0 <= u < 128 ->
        (0 <= word < 2 ^ 32 /\ mask7 word = u)
        <-> exists q, 0 <= q < 2 ^ 25 /\ word = 128 * q + u).
Proof.
  apply (C3_cells_uniform "t1.csv" 3 2 (demo_world Posix)).
  intros k. reflexivity.
Defined.

(** Eight words of the Mersenne Twister whose low seven bits are 82, 48, 74,
    16, 102, 98, 116 and 25: the fifth and the seventh are drawn again, and
    the six cells are the other six, in order. *)
Example run_on_words :
  files (generate_dataset "t1.csv" 3 2
           (with_words [128082; 944; 74; 4294967184; 102; 738; 116; 281]
                       (demo_world Posix))).2 !! "t1.csv"
  = Some ("dimension_1,dimension_2" +:+ CRLF +:+ "82,48" +:+ CRLF
          +:+ "74,16" +:+ CRLF +:+ "98,25" +:+ CRLF).
Proof. vm_compute. reflexivity. Qed.

(** One cell and one word, by enumeration: of the 128 values of the low bits
    101 let the call complete, and one of those writes 42. *)
Example one_cell_by_enumeration :
  count (run_event "t.csv" 1 1 (demo_world Posix) [anything]) (word_runs 1)
  = 101%nat
  /\ count (run_event "t.csv" 1 1 (demo_world Posix) [Z.eqb 42]) (word_runs 1)
     = 1%nat.
Proof. split; vm_compute; reflexivity. Qed.

(** ** What a failed call leaves *)


